(** * Unit-cost calculator: the package-size normalizer and the cost
      recomputation of [src/frontend/src/App.jsx]

    The component keeps its data in React state; the handlers [saveEdit],
    [startEdit], [cancelEdit] and [toggleExpanded] read the state captured
    by the render and call the state setters; so do [handleCalculate], up
    to and after its request, and [loadExample].  The pricing service is
    outside this development: its reply is taken as it arrives.  Of the
    markup, only the conditions under which a row shows its details, the
    edit form and the buttons are modelled.  JavaScript numbers are IEEE-754 binary64
    values, modelled by the kernel's primitive [float]; JavaScript strings
    are modelled by [string], every [ascii] standing for the code unit of
    the same number (0 to 255). *)

From Stdlib Require Import ZArith List String Ascii Bool Lia Floats DecimalString.
Import ListNotations.

Local Open Scope string_scope.

(** ** The JavaScript built-ins the component calls *)

Module JS.

(** The Number type. *)
Definition Number : Type := float.

Definition isNaN (x : Number) : bool := PrimFloat.is_nan x.

(** *** Characters *)

Definition code (c : ascii) : nat := nat_of_ascii c.

(** WhiteSpace and LineTerminator code units below 256: TAB, LF, VT, FF,
    CR, SP and NBSP.  [String.prototype.trim], [parseFloat] and the
    regular-expression class [\s] all use this set. *)
Definition isWhiteSpace (c : ascii) : bool :=
  let n := code c in
  ((9 <=? n) && (n <=? 13) || (n =? 32) || (n =? 160))%nat.

(** DecimalDigit, the class [\d]. *)
Definition isDigit (c : ascii) : bool :=
  let n := code c in ((48 <=? n) && (n <=? 57))%nat.

Definition digitValue (c : ascii) : Z := Z.of_nat (code c) - 48.

(** The leading run of characters satisfying [p], and what follows it. *)
Fixpoint span (p : ascii -> bool) (s : string) : string * string :=
  match s with
  | String c rest =>
      if p c then let (run, tl) := span p rest in (String c run, tl)
      else ("", s)
  | EmptyString => ("", s)
  end.

Fixpoint dropWhile (p : ascii -> bool) (s : string) : string :=
  match s with
  | String c rest => if p c then dropWhile p rest else s
  | EmptyString => s
  end.

(** MV of a DecimalDigits string, most significant digit first. *)
Fixpoint digitsValue (acc : Z) (ds : string) : Z :=
  match ds with
  | String c rest => digitsValue (acc * 10 + digitValue c) rest
  | EmptyString => acc
  end.

Definition isEmpty (s : string) : bool :=
  match s with EmptyString => true | _ => false end.

(** *** Decimal to binary64, correctly rounded

    [ofDecimal neg m e] is the Number value of [m * 10^e] (with the sign
    [neg]): the quotient is taken with at least 64 significant bits, the
    remainder gives the position of the exact value between two
    quotients, and [binary_round_aux] rounds to nearest, ties to even,
    overflowing to infinity. *)
Definition ofDecimal (neg : bool) (m e : Z) : Number :=
  if (m <=? 0)%Z then (if neg then neg_zero else zero)
  else
    let num := if (0 <=? e)%Z then (m * 10 ^ e)%Z else m in
    let den := if (0 <=? e)%Z then 1%Z else (10 ^ (- e))%Z in
    let k := Z.max 0 (64 + Z.log2 den - Z.log2 num) in
    let q := ((num * 2 ^ k) / den)%Z in
    let r := ((num * 2 ^ k) mod den)%Z in
    let loc := if (r =? 0)%Z then loc_Exact
               else loc_Inexact (Z.compare (2 * r) den) in
    SF2Prim (binary_round_aux prec emax neg q (- k) loc).

(** *** parseFloat

    The longest prefix of the trimmed string that is a StrDecimalLiteral:
    an optional sign, then [Infinity], or digits with an optional
    fraction and an optional exponent part. *)
Inductive Literal : Type :=
| LitInfinity
| LitDecimal (mantissa : Z) (exp10 : Z).

(** An optional sign: whether it is a minus, and what follows it. *)
Definition scanSign (s : string) : bool * string :=
  match s with
  | String c r =>
      if Ascii.eqb c "+" then (false, r)
      else if Ascii.eqb c "-" then (true, r)
      else (false, s)
  | EmptyString => (false, s)
  end.

(** ExponentPart, when the characters after the indicator make one. *)
Definition scanExponent (s : string) : Z :=
  match s with
  | String c rest =>
      if (Ascii.eqb c "e" || Ascii.eqb c "E")%bool then
        let (neg, rest') := scanSign rest in
        let (ds, _) := span isDigit rest' in
        if isEmpty ds then 0%Z
        else if neg then (- digitsValue 0 ds)%Z else digitsValue 0 ds
      else 0%Z
  | EmptyString => 0%Z
  end.

Definition scanUnsigned (s : string) : option Literal :=
  if String.prefix "Infinity" s then Some LitInfinity
  else
    let (ip, r1) := span isDigit s in
    let integer :=
      if isEmpty ip then None
      else Some (LitDecimal (digitsValue 0 ip) (scanExponent r1)) in
    match r1 with
    | String c r2 =>
        if Ascii.eqb c "." then
          let (fp, r3) := span isDigit r2 in
          if (isEmpty ip && isEmpty fp)%bool then None
          else Some (LitDecimal (digitsValue 0 (ip ++ fp))
                                (scanExponent r3 - Z.of_nat (String.length fp)))
        else integer
    | EmptyString => integer
    end.

Definition literalValue (neg : bool) (l : option Literal) : Number :=
  match l with
  | None => nan
  | Some LitInfinity => if neg then neg_infinity else infinity
  | Some (LitDecimal m e) => ofDecimal neg m e
  end.

Definition parseFloat (s : string) : Number :=
  let (neg, t) := scanSign (dropWhile isWhiteSpace s) in
  literalValue neg (scanUnsigned t).

(** *** Number::toString, radix 10

    A positive finite number is exactly [m * 2^e].  Its string has the
    fewest digits [k] for which some [s] of [k] digits gives back the
    number as [s * 10^(n-k)]; among several such [s] the one closest to
    the number is taken, and the even one on a tie. *)

Definition pow2 (e : Z) : Z := if (0 <=? e)%Z then (2 ^ e)%Z else 1%Z.
Definition pow10 (p : Z) : Z := if (0 <=? p)%Z then (10 ^ p)%Z else 1%Z.

(** Numerator and denominator of [m * 2^e * 10^p]. *)
Definition scaledNum (m : positive) (e p : Z) : Z := (Zpos m * pow2 e * pow10 p)%Z.
Definition scaledDen (e p : Z) : Z := (pow2 (- e) * pow10 (- p))%Z.

(** The [n] with [10^(n-1) <= m * 2^e < 10^n]: the estimate from the
    binary logarithm is at most two below it. *)
Definition decimalExponent (m : positive) (e : Z) : Z :=
  let g := (((Z.log2 (Zpos m) + e) * 30103) / 100000)%Z in
  let below n := (scaledNum m e (- n) / scaledDen e (- n) =? 0)%Z in
  if below g then g else if below (g + 1)%Z then (g + 1)%Z else (g + 2)%Z.

Definition roundTrips (x : Number) (s p : Z) : bool :=
  PrimFloat.eqb (ofDecimal false s (- p)) x.

(** The digits [s] for [k] digits, if [k] digits are enough. *)
Definition digitsCandidate (x : Number) (m : positive) (e n k : Z) : option Z :=
  let p := (k - n)%Z in
  let num := scaledNum m e p in
  let den := scaledDen e p in
  let lo := (num / den)%Z in
  let r := (num mod den)%Z in
  let hi := (lo + 1)%Z in
  if (r =? 0)%Z then (if roundTrips x lo p then Some lo else None)
  else
    match roundTrips x lo p, roundTrips x hi p with
    | true, true =>
        Some (match (2 * r ?= den)%Z with
              | Lt => lo
              | Gt => hi
              | Eq => if Z.even lo then lo else hi
              end)
    | true, false => Some lo
    | false, true => Some hi
    | false, false => None
    end.

Fixpoint firstSome {A B : Type} (f : A -> option B) (l : list A) : option B :=
  match l with
  | [] => None
  | a :: tl => match f a with Some b => Some b | None => firstSome f tl end
  end.

Definition decimalString (z : Z) : string :=
  DecimalString.NilZero.string_of_uint (N.to_uint (Z.to_N z)).

Fixpoint zeros (n : nat) : string :=
  match n with O => "" | S n' => String "0" (zeros n') end.

Fixpoint stripTrailingZeros (s : string) : string :=
  match s with
  | EmptyString => EmptyString
  | String c tl =>
      match stripTrailingZeros tl with
      | EmptyString => if Ascii.eqb c "0" then EmptyString else String c EmptyString
      | tl' => String c tl'
      end
  end.

(** The digit string of [s] and the exponent [n] laid out. *)
Definition formatDigits (ds : string) (n : Z) : string :=
  let k := Z.of_nat (String.length ds) in
  if ((k <=? n) && (n <=? 21))%Z then ds ++ zeros (Z.to_nat (n - k))
  else if ((0 <? n) && (n <=? 21))%Z then
    substring 0 (Z.to_nat n) ds ++ "." ++ substring (Z.to_nat n) (Z.to_nat (k - n)) ds
  else if ((-6 <? n) && (n <=? 0))%Z then "0." ++ zeros (Z.to_nat (- n)) ++ ds
  else
    let e := (n - 1)%Z in
    let es := (if (e <? 0)%Z then "-" else "+") ++ decimalString (Z.abs e) in
    if (k =? 1)%Z then ds ++ "e" ++ es
    else substring 0 1 ds ++ "." ++ substring 1 (Z.to_nat (k - 1)) ds ++ "e" ++ es.

Definition positiveToString (x : Number) (m : positive) (e : Z) : string :=
  let n := decimalExponent m e in
  match firstSome (fun k => option_map (fun s => (s, k)) (digitsCandidate x m e n k))
                  (map Z.of_nat (seq 1 17)) with
  | Some (s, k) =>
      let all := decimalString s in
      formatDigits (stripTrailingZeros all)
                   (n + (Z.of_nat (String.length all) - k))%Z
  | None => "NaN"  (* seventeen digits always suffice *)
  end.

Definition Number_toString (x : Number) : string :=
  match Prim2SF x with
  | S754_nan => "NaN"
  | S754_zero _ => "0"
  | S754_infinity neg => if neg then "-Infinity" else "Infinity"
  | S754_finite neg m e =>
      (if neg then "-" else "") ++ positiveToString (PrimFloat.abs x) m e
  end.

(** *** Number.prototype.toFixed

    The integer [n] closest to the number times [10^f], the larger one on
    a tie, written with [f] digits after the point. *)
Definition fixedDigits (n : Z) (f : nat) : string :=
  let m := decimalString n in
  if (f =? 0)%nat then m
  else
    let m := zeros (f + 1 - String.length m) ++ m in
    let k := String.length m in
    substring 0 (k - f) m ++ "." ++ substring (k - f) f m.

Definition Number_toFixed (x : Number) (f : nat) : string :=
  match Prim2SF x with
  | S754_nan => Number_toString x
  | S754_infinity _ => Number_toString x
  | S754_zero _ => fixedDigits 0 f
  | S754_finite neg m e =>
      (if neg then "-" else "") ++
      (if (1e21 <=? PrimFloat.abs x)%float then Number_toString (PrimFloat.abs x)
       else
         let num := scaledNum m e (Z.of_nat f) in
         let den := scaledDen e (Z.of_nat f) in
         fixedDigits ((2 * num + den) / (2 * den))%Z f)
  end.

(** *** Regular expressions (no [u] flag)

    The backtracking matcher of the language definition: a pattern is
    compiled to a [Matcher], a function of a match state and a
    continuation.  A state holds what is left of the input after the
    characters matched so far, and the captures. *)

Inductive Regex : Type :=
| Chr (a : ascii)                          (* a pattern character *)
| Cls (members : list ascii)               (* a character class such as \d *)
| Seq (r1 r2 : Regex)
| Alt (r1 r2 : Regex)                      (* r1|r2 *)
| Rep (min : nat) (max : option nat) (r : Regex)  (* greedy quantifier *)
| Grp (n : nat) (r : Regex).               (* n-th capturing parentheses *)

Record MatchState : Type := mkMatchState {
  rest : string;
  captures : list (option string)
}.

Definition Continuation : Type := MatchState -> option MatchState.
Definition Matcher : Type := MatchState -> Continuation -> option MatchState.

(** Canonicalize for an ignore-case pattern without the [u] flag: the
    upper-case form, as a code point, unless it is more than one code
    unit long (sharp s) or maps a non-ASCII character into ASCII. *)
Definition Canonicalize (ignoreCase : bool) (ch : ascii) : nat :=
  let n := code ch in
  if negb ignoreCase then n
  else if ((97 <=? n) && (n <=? 122))%nat then n - 32
  else if ((224 <=? n) && (n <=? 254) && negb (n =? 247))%nat then n - 32
  else if (n =? 255)%nat then 376
  else if (n =? 181)%nat then 924
  else n.

Definition classMatches (ignoreCase : bool) (members : list ascii) (ch : ascii) : bool :=
  existsb (fun a => (Canonicalize ignoreCase a =? Canonicalize ignoreCase ch)%nat) members.

Definition CharacterSetMatcher (p : ascii -> bool) : Matcher :=
  fun x c =>
    match rest x with
    | String ch tl => if p ch then c (mkMatchState tl (captures x)) else None
    | EmptyString => None
    end.

Fixpoint setNth {A : Type} (n : nat) (v : A) (d : A) (l : list A) : list A :=
  match n, l with
  | O, _ :: tl => v :: tl
  | O, [] => [v]
  | S n', h :: tl => h :: setNth n' v d tl
  | S n', [] => d :: setNth n' v d []
  end.

(** The state [y] reached from [x] by a group, with the text in between
    recorded as capture [n]. *)
Definition capture (n : nat) (x y : MatchState) : MatchState :=
  let len := String.length (rest x) - String.length (rest y) in
  mkMatchState (rest y) (setNth n (Some (substring 0 len (rest x))) None (captures y)).

(** RepeatMatcher.  An iteration that is not required ([min] = 0) and
    consumes nothing is rejected, so [min] plus the length of the rest
    of the input bounds the number of iterations, and [fuel] starts above
    that bound.  (The captures of groups inside the quantified atom would
    be cleared at each iteration; the pattern of the component has no
    group inside a quantifier.) *)
Fixpoint RepeatMatcher (m : Matcher) (fuel : nat) (min : nat) (max : option nat)
    (x : MatchState) (c : Continuation) : option MatchState :=
  match max, fuel with
  | Some O, _ => c x
  | _, O => None
  | _, S fuel' =>
      let d : Continuation := fun y =>
        if ((min =? 0) && (String.length (rest y) =? String.length (rest x)))%nat
        then None
        else RepeatMatcher m fuel' (Nat.pred min) (option_map Nat.pred max) y c in
      if (min =? 0)%nat then
        match m x d with
        | Some z => Some z
        | None => c x
        end
      else m x d
  end.

Fixpoint CompileSubpattern (ignoreCase : bool) (r : Regex) : Matcher :=
  match r with
  | Chr a =>
      CharacterSetMatcher
        (fun ch => (Canonicalize ignoreCase ch =? Canonicalize ignoreCase a)%nat)
  | Cls members => CharacterSetMatcher (classMatches ignoreCase members)
  | Seq r1 r2 =>
      fun x c => CompileSubpattern ignoreCase r1 x
                   (fun y => CompileSubpattern ignoreCase r2 y c)
  | Alt r1 r2 =>
      fun x c =>
        match CompileSubpattern ignoreCase r1 x c with
        | Some z => Some z
        | None => CompileSubpattern ignoreCase r2 x c
        end
  | Rep min max r1 =>
      fun x c =>
        RepeatMatcher (CompileSubpattern ignoreCase r1)
                      (S (min + String.length (rest x))) min max x c
  | Grp n r1 =>
      fun x c => CompileSubpattern ignoreCase r1 x (fun y => c (capture n x y))
  end.

(** One attempt at the start of [s]: capture 0 is the whole match. *)
Definition matchAt (ignoreCase : bool) (r : Regex) (s : string) : option MatchState :=
  CompileSubpattern ignoreCase (Grp 0 r) (mkMatchState s []) (fun y => Some y).

(** RegExpBuiltinExec of a pattern that is neither global nor sticky:
    the first start index, from 0 to the length of the input, at which
    the matcher succeeds. *)
Fixpoint exec (ignoreCase : bool) (r : Regex) (s : string) : option (list (option string)) :=
  match matchAt ignoreCase r s with
  | Some y => Some (captures y)
  | None =>
      match s with
      | String _ tl => exec ignoreCase r tl
      | EmptyString => None
      end
  end.

(** [String.prototype.match] with such a pattern is [exec]. *)
Definition String_match := exec.

(** [String.prototype.toLowerCase] on code units below 256. *)
Definition lowerChar (ch : ascii) : ascii :=
  let n := code ch in
  if ((65 <=? n) && (n <=? 90))%nat then ascii_of_nat (n + 32)
  else if ((192 <=? n) && (n <=? 222) && negb (n =? 215))%nat then ascii_of_nat (n + 32)
  else ch.

Fixpoint toLowerCase (s : string) : string :=
  match s with
  | String ch tl => String (lowerChar ch) (toLowerCase tl)
  | EmptyString => EmptyString
  end.

(** *** String.prototype.trim *)

Fixpoint trimEnd (s : string) : string :=
  match s with
  | EmptyString => EmptyString
  | String c tl =>
      match trimEnd tl with
      | EmptyString => if isWhiteSpace c then EmptyString else String c EmptyString
      | tl' => String c tl'
      end
  end.

Definition trim (s : string) : string := trimEnd (dropWhile isWhiteSpace s).

(** *** parseInt, without a radix

    Leading white space and one sign are skipped, [0x] or [0X] selects
    radix 16, and the longest run of digits of the radix is read; without
    a digit the value is NaN. *)
Definition isHexDigit (c : ascii) : bool :=
  let n := code c in
  (isDigit c || (65 <=? n) && (n <=? 70) || (97 <=? n) && (n <=? 102))%nat.

Definition hexValue (c : ascii) : Z :=
  let n := code c in
  if isDigit c then digitValue c
  else if (n <=? 70)%nat then Z.of_nat n - 55
  else Z.of_nat n - 87.

Fixpoint hexDigitsValue (acc : Z) (ds : string) : Z :=
  match ds with
  | String c tl => hexDigitsValue (acc * 16 + hexValue c) tl
  | EmptyString => acc
  end.

Definition parseInt (s : string) : Number :=
  let (neg, t) := scanSign (dropWhile isWhiteSpace s) in
  let hex :=
    match t with
    | String z (String x r) =>
        if (Ascii.eqb z "0" && (Ascii.eqb x "x" || Ascii.eqb x "X"))%bool
        then Some r else None
    | _ => None
    end in
  match hex with
  | Some r =>
      let (ds, _) := span isHexDigit r in
      if isEmpty ds then nan else ofDecimal neg (hexDigitsValue 0 ds) 0
  | None =>
      let (ds, _) := span isDigit t in
      if isEmpty ds then nan else ofDecimal neg (digitsValue 0 ds) 0
  end.

End JS.

Import JS.

(** ** The component: [src/frontend/src/App.jsx] *)

Module App.

(** The payload of the pricing service, as the component reads it. *)
Record PackageInfo : Type := mkPackageInfo {
  size : string;
  price : Number;
  cost_per_unit : Number;
  pkg_unit : string              (* package_info.unit *)
}.

Record Ingredient : Type := mkIngredient {
  ingredient : string;
  quantity : Number;
  ing_unit : string;             (* unit *)
  cost : Number;
  note : option string;
  manually_adjusted : bool;      (* [false] also when the property is absent *)
  package_info : option PackageInfo
}.

Record Result : Type := mkResult {
  recipe_name : option string;
  ingredients : list Ingredient;
  total_cost : Number;
  yield_count : Number;
  unit_cost : Number
}.

(** The [useState] cells of [UnitCostCalculator]. *)
Record State : Type := mkState {
  recipe : string;
  yield_ : string;
  loading : bool;
  result : option Result;
  error : string;
  editingIndex : option nat;
  editPackageSize : string;
  editPackagePrice : string;
  expandedIndex : option nat
}.

(** *** Event handlers

    A handler reads the state its render captured and has two effects:
    it calls state setters, which build the state of the next render, and
    it shows alerts.  Reading a property of [null] or [undefined] throws
    a TypeError, which ends the handler. *)
Record Effects : Type := mkEffects {
  pending : State;
  alerts : list string
}.

Inductive Completion (A : Type) : Type :=
| Normal (a : A)
| TypeError.
Arguments Normal {A} a.
Arguments TypeError {A}.

Definition Handler (A : Type) : Type := Effects -> Completion A * Effects.

Definition ret {A : Type} (a : A) : Handler A := fun w => (Normal a, w).

Definition bind {A B : Type} (h : Handler A) (k : A -> Handler B) : Handler B :=
  fun w =>
    match h w with
    | (Normal a, w') => k a w'
    | (TypeError, w') => (TypeError, w')
    end.

Notation "x <- h ;; k" := (bind h (fun x => k))
  (at level 61, h at next level, right associativity).
Notation "h ;; k" := (bind h (fun _ => k))
  (at level 61, right associativity).

Definition alert (msg : string) : Handler unit :=
  fun w => (Normal tt, mkEffects (pending w) (alerts w ++ [msg])).

(** The value of an expression whose properties are read next. *)
Definition defined {A : Type} (v : option A) : Handler A :=
  fun w => match v with Some a => (Normal a, w) | None => (TypeError, w) end.

Definition modify (f : State -> State) : Handler unit :=
  fun w => (Normal tt, mkEffects (f (pending w)) (alerts w)).

Definition setResult (v : option Result) : Handler unit :=
  modify (fun s => mkState (recipe s) (yield_ s) (loading s) v (error s)
                     (editingIndex s) (editPackageSize s) (editPackagePrice s)
                     (expandedIndex s)).
Definition setEditingIndex (v : option nat) : Handler unit :=
  modify (fun s => mkState (recipe s) (yield_ s) (loading s) (result s) (error s)
                     v (editPackageSize s) (editPackagePrice s) (expandedIndex s)).
Definition setEditPackageSize (v : string) : Handler unit :=
  modify (fun s => mkState (recipe s) (yield_ s) (loading s) (result s) (error s)
                     (editingIndex s) v (editPackagePrice s) (expandedIndex s)).
Definition setEditPackagePrice (v : string) : Handler unit :=
  modify (fun s => mkState (recipe s) (yield_ s) (loading s) (result s) (error s)
                     (editingIndex s) (editPackageSize s) v (expandedIndex s)).

(** A handler run on the state of the current render. *)
Definition run {A : Type} (h : State -> Handler A) (st : State) : Completion A * Effects :=
  h st (mkEffects st []).

(** *** parsePackageSize *)

Definition digits : list ascii :=
  ["0"; "1"; "2"; "3"; "4"; "5"; "6"; "7"; "8"; "9"]%char.

Definition whiteSpace : list ascii :=
  [ascii_of_nat 9; ascii_of_nat 10; ascii_of_nat 11; ascii_of_nat 12;
   ascii_of_nat 13; " "%char; ascii_of_nat 160].

(** [/(\d+(?:\.\d+)?)\s*(g|kg|ml|L|item)/i] *)
Definition sizePattern : Regex :=
  Seq (Grp 1 (Seq (Rep 1 None (Cls digits))
                  (Rep 0 (Some 1) (Seq (Chr ".") (Rep 1 None (Cls digits))))))
 (Seq (Rep 0 None (Cls whiteSpace))
      (Grp 2 (Alt (Chr "g")
             (Alt (Seq (Chr "k") (Chr "g"))
             (Alt (Seq (Chr "m") (Chr "l"))
             (Alt (Chr "L")
                  (Seq (Chr "i") (Seq (Chr "t") (Seq (Chr "e") (Chr "m")))))))))).

Record ParsedSize : Type := mkParsedSize {
  value : Number;
  unit_ : string
}.

(** [null] is [None]; reading [match[1]] or [match[2]] when the group is
    undefined would throw. *)
Definition parsePackageSize (sizeStr : string) : Completion (option ParsedSize) :=
  match String_match true sizePattern sizeStr with
  | None => Normal None
  | Some m =>
      match nth 1 m None, nth 2 m None with
      | Some m1, Some m2 =>
          let value := parseFloat m1 in
          let unit := toLowerCase m2 in
          let value := if String.eqb unit "kg" then (value * 1000)%float else value in
          let value := if String.eqb unit "l" then (value * 1000)%float else value in
          Normal (Some (mkParsedSize value
                   (if String.eqb unit "item" then "item"
                    else if (String.eqb unit "ml" || String.eqb unit "l")%bool then "ml"
                    else "g")))
      | _, _ => TypeError
      end
  end.

(** *** startEdit *)

Definition completed {A : Type} (v : Completion A) : Handler A := fun w => (v, w).

Definition startEdit (index : nat) (st : State) : Handler unit :=
  res <- defined (result st) ;;
  ing <- defined (nth_error (ingredients res) index) ;;
  match package_info ing with
  | Some pkg =>
      parsed <- completed (parsePackageSize (size pkg)) ;;
      match parsed with
      | Some p => setEditPackageSize (Number_toString (value p))
      | None => setEditPackageSize ""
      end ;;
      setEditPackagePrice (Number_toFixed (price pkg) 2)
  | None => ret tt
  end ;;
  setEditingIndex (Some index).

(** *** cancelEdit *)
Definition cancelEdit (st : State) : Handler unit :=
  setEditingIndex None ;;
  setEditPackageSize "" ;;
  setEditPackagePrice "".

(** *** saveEdit *)

Definition invalidPackageSize : string := "Please enter a valid package size".
Definition invalidPackagePrice : string := "Please enter a valid package price".

(** [a[index] = v] for an index inside the array, the only case
    [saveEdit] reaches: [ing.quantity] has already thrown otherwise. *)
Fixpoint assign {A : Type} (l : list A) (index : nat) (v : A) : list A :=
  match l, index with
  | [], _ => []
  | _ :: tl, O => v :: tl
  | h :: tl, S i => h :: assign tl i v
  end.

Definition displayUnitOf (unit : string) : string :=
  if String.eqb unit "ml" then "ml"
  else if String.eqb unit "item" then "item"
  else "g".

(** [updatedIngredients.reduce((sum, ing) => sum + ing.cost, 0)] *)
Definition sumCosts (l : list Ingredient) : Number :=
  fold_left (fun sum ing => (sum + cost ing)%float) l zero.

Definition saveEdit (index : nat) (st : State) : Handler unit :=
  let packageSize := parseFloat (editPackageSize st) in
  let packagePrice := parseFloat (editPackagePrice st) in
  if (isNaN packageSize || (packageSize <=? 0)%float)%bool then
    alert invalidPackageSize
  else if (isNaN packagePrice || (packagePrice <? 0)%float)%bool then
    alert invalidPackagePrice
  else
    res <- defined (result st) ;;
    ing <- defined (nth_error (ingredients res) index) ;;
    let newCostPerUnit := (packagePrice / packageSize)%float in
    let newIngredientCost := (newCostPerUnit * quantity ing)%float in
    let displayUnit := displayUnitOf (ing_unit ing) in
    let updatedIngredients :=
      assign (ingredients res) index
        (mkIngredient (ingredient ing) (quantity ing) (ing_unit ing)
           newIngredientCost
           (note ing)
           true
           (Some (mkPackageInfo (Number_toString packageSize ++ displayUnit)
                                packagePrice
                                newCostPerUnit
                                displayUnit))) in
    let newTotalCost := sumCosts updatedIngredients in
    let newUnitCost := (newTotalCost / yield_count res)%float in
    setResult (Some (mkResult (recipe_name res) updatedIngredients
                              newTotalCost (yield_count res) newUnitCost)) ;;
    setEditingIndex None ;;
    setEditPackageSize "" ;;
    setEditPackagePrice "".


(** *** handleCalculate

    The handler is asynchronous.  [handleCalculate] is the part that runs
    at the click, up to the [await] of [fetch]: it returns the request it
    sends, if it sends one.  [handleCalculateResumed] is the part that
    runs when the request has ended; it reads no state, it only calls
    setters. *)
Definition setRecipe (v : string) : Handler unit :=
  modify (fun s => mkState v (yield_ s) (loading s) (result s) (error s)
                     (editingIndex s) (editPackageSize s) (editPackagePrice s)
                     (expandedIndex s)).
Definition setYield (v : string) : Handler unit :=
  modify (fun s => mkState (recipe s) v (loading s) (result s) (error s)
                     (editingIndex s) (editPackageSize s) (editPackagePrice s)
                     (expandedIndex s)).
Definition setLoading (v : bool) : Handler unit :=
  modify (fun s => mkState (recipe s) (yield_ s) v (result s) (error s)
                     (editingIndex s) (editPackageSize s) (editPackagePrice s)
                     (expandedIndex s)).
Definition setError (v : string) : Handler unit :=
  modify (fun s => mkState (recipe s) (yield_ s) (loading s) (result s) v
                     (editingIndex s) (editPackageSize s) (editPackagePrice s)
                     (expandedIndex s)).

(** The JSON body of the POST to [/calculate-cost]. *)
Record Request : Type := mkRequest {
  body_recipe : string;
  body_yield_count : Number
}.

(** How the request ends: [fetch] rejects with an error, the response is
    not ok, reading its JSON rejects with an error, or the body is the
    result of the service.  An error is its [message]; a missing message
    is the empty string, which is as falsy. *)
Inductive Reply : Type :=
| FetchRejected (message : string)
| ResponseNotOk
| JsonRejected (message : string)
| ResponseData (data : Result).

Definition enterRecipe : string := "Please enter a recipe".
Definition enterYield : string := "Please enter the yield (number of items)".
Definition failedToCalculate : string := "Failed to calculate cost".
Definition somethingWentWrong : string := "Something went wrong. Please try again.".

Definition handleCalculate (st : State) : Handler (option Request) :=
  if isEmpty (trim (recipe st)) then
    setError enterRecipe ;; ret None
  else if isEmpty (trim (yield_ st)) then
    setError enterYield ;; ret None
  else
    setLoading true ;;
    setError "" ;;
    setResult None ;;
    setEditingIndex None ;;
    ret (Some (mkRequest (recipe st) (parseInt (yield_ st)))).

(** [err.message || 'Something went wrong. Please try again.'] *)
Definition messageOf (message : string) : string :=
  if isEmpty message then somethingWentWrong else message.

Definition handleCalculateResumed (reply : Reply) (st : State) : Handler unit :=
  match reply with
  | FetchRejected message => setError (messageOf message)
  | ResponseNotOk => setError (messageOf failedToCalculate)
  | JsonRejected message => setError (messageOf message)
  | ResponseData data => setResult (Some data)
  end ;;
  setLoading false.

(** *** loadExample *)
Definition exampleRecipe : string :=
  String.concat (String (ascii_of_nat 10) "")
    ["Chocolate Chip Protein Cookies"; "";
     "- 60g oats"; "- 30g peanut butter"; "- 20g protein powder"; "- 1 egg";
     "- 10g chocolate chips"; ""; "Yields: 6 cookies"].

Definition loadExample (st : State) : Handler unit :=
  setRecipe exampleRecipe ;;
  setYield "6" ;;
  setError "" ;;
  setResult None.

(** *** What the table shows

    A row shows its details when it is the expanded one and its line has
    package information (line 336); the details are the edit form, with
    its Save and Cancel buttons, when the row is the edited one (line 339),
    and the pricing details with the Edit button otherwise. *)
Definition detailsShown (st : State) (idx : nat) : bool :=
  match result st with
  | Some res =>
      match nth_error (ingredients res) idx with
      | Some ing =>
          match expandedIndex st, package_info ing with
          | Some i, Some _ => Nat.eqb i idx
          | _, _ => false
          end
      | None => false
      end
  | None => false
  end.

Definition editingThis (st : State) (idx : nat) : bool :=
  match editingIndex st with
  | Some i => Nat.eqb i idx
  | None => false
  end.

Definition editFormShown (st : State) (idx : nat) : bool :=
  (detailsShown st idx && editingThis st idx)%bool.

Definition editButtonShown (st : State) (idx : nat) : bool :=
  (detailsShown st idx && negb (editingThis st idx))%bool.

End App.

Import App.

(** ** Vocabulary of the statements *)

Set Warnings "-inexact-float".

(** [saveEdit] succeeds: no alert, and the next render holds [res'] with
    the edit closed. *)
Definition Saves (index : nat) (st : State) (res' : Result) : Prop :=
  run (saveEdit index) st =
    (Normal tt,
     mkEffects (mkState (recipe st) (yield_ st) (loading st) (Some res') (error st)
                        None "" "" (expandedIndex st)) []).

(** [saveEdit] fails with the validation message [msg]. *)
Definition Fails (index : nat) (st : State) (msg : string) : Prop :=
  alerts (snd (run (saveEdit index) st)) = [msg].

(** The state of a render in which an edit of the given inputs is open. *)
Definition editing (res : Result) (index : nat) (rawSize rawPrice : string) : State :=
  mkState "" "6" false (Some res) "" (Some index) rawSize rawPrice (Some index).

(** The ingredient of the first scenario, and a two-line recipe. *)
Definition oats : Ingredient :=
  mkIngredient "oats" 60%float "g" 0.46%float None false
    (Some (mkPackageInfo "454g" 3.5%float 0.0077%float "g")).

Definition peanutButter : Ingredient :=
  mkIngredient "peanut butter" 30%float "g" 0.22%float (Some "smooth") false None.

Definition cookies : Result :=
  mkResult (Some "Cookies") [oats; peanutButter] 0.68%float 6%float 0.11%float.

(** Every character of [s] satisfies [p]. *)
Fixpoint allChars (p : ascii -> bool) (s : string) : bool :=
  match s with
  | String ch tl => p ch && allChars p tl
  | EmptyString => true
  end.

(** A sign-free decimal number: digits, possibly followed by a point and
    digits. *)
Inductive DecimalText : string -> Prop :=
| DecimalInteger (ip : string) :
    ip <> "" -> allChars isDigit ip = true -> DecimalText ip
| DecimalFraction (ip fp : string) :
    ip <> "" -> allChars isDigit ip = true ->
    fp <> "" -> allChars isDigit fp = true ->
    DecimalText (ip ++ "." ++ fp).

(** A unit token, in any mix of upper and lower case. *)
Definition unitTokens : list string := ["g"; "kg"; "ml"; "l"; "item"].

Definition UnitToken (tok : string) : Prop := In (toLowerCase tok) unitTokens.

(** The grammar of a package size: a number, optional white space, a unit
    token. *)
Inductive SizeText : string -> Prop :=
| SizeText_intro (num ws tok : string) :
    DecimalText num ->
    allChars isWhiteSpace ws = true ->
    UnitToken tok ->
    SizeText (num ++ ws ++ tok).

(** [s] has a part that is a package size. *)
Definition ContainsSizeText (s : string) : Prop :=
  exists pre w post, s = pre ++ w ++ post /\ SizeText w.

(** A size text starts at the head of [s]. *)
Definition StartsSizeText (s : string) : Prop :=
  exists w rest, s = w ++ rest /\ SizeText w.

(** No size text starts inside [pre] when [s] follows it: a size text at
    the head of [s] is then the leftmost one of [pre ++ s]. *)
Definition Leftmost (pre s : string) : Prop :=
  forall p1 p2, pre = p1 ++ p2 -> p2 <> "" -> ~ StartsSizeText (p2 ++ s).

(** The strings a pattern can match, whatever the order in which the
    matcher tries them. *)
Inductive Lang (ignoreCase : bool) : Regex -> string -> Prop :=
| LangChr (a ch : ascii) :
    Canonicalize ignoreCase ch = Canonicalize ignoreCase a ->
    Lang ignoreCase (Chr a) (String ch "")
| LangCls (members : list ascii) (ch : ascii) :
    classMatches ignoreCase members ch = true ->
    Lang ignoreCase (Cls members) (String ch "")
| LangSeq (r1 r2 : Regex) (w1 w2 : string) :
    Lang ignoreCase r1 w1 -> Lang ignoreCase r2 w2 ->
    Lang ignoreCase (Seq r1 r2) (w1 ++ w2)
| LangAltL (r1 r2 : Regex) (w : string) :
    Lang ignoreCase r1 w -> Lang ignoreCase (Alt r1 r2) w
| LangAltR (r1 r2 : Regex) (w : string) :
    Lang ignoreCase r2 w -> Lang ignoreCase (Alt r1 r2) w
| LangRepStop (min : nat) (max : option nat) (r : Regex) :
    min = 0%nat \/ max = Some 0%nat ->
    Lang ignoreCase (Rep min max r) ""
| LangRepStep (min : nat) (max : option nat) (r : Regex) (w1 w2 : string) :
    max <> Some 0%nat ->
    Lang ignoreCase r w1 ->
    Lang ignoreCase (Rep (Nat.pred min) (option_map Nat.pred max) r) w2 ->
    Lang ignoreCase (Rep min max r) (w1 ++ w2)
| LangGrp (n : nat) (r : Regex) (w : string) :
    Lang ignoreCase r w -> Lang ignoreCase (Grp n r) w.

(** The next character, if any, does not satisfy [p]. *)
Definition stopsAt (p : ascii -> bool) (s : string) : Prop :=
  match s with
  | String ch _ => p ch = false
  | EmptyString => True
  end.

(** The text starts with an unsigned decimal literal: [Infinity], a
    digit, or a point and a digit. *)
Definition startsNumber (s : string) : bool :=
  (String.prefix "Infinity" s
   || match s with
      | String ch tl =>
          isDigit ch
          || (Ascii.eqb ch "."
              && match tl with String d _ => isDigit d | EmptyString => false end)
      | EmptyString => false
      end)%bool.

(** After leading white space and one optional sign. *)
Definition hasNumericPrefix (s : string) : bool :=
  startsNumber (snd (scanSign (dropWhile isWhiteSpace s))).

Definition notDigit (ch : ascii) : bool := negb (isDigit ch).

(** The state with other edit inputs. *)
Definition withInputs (st : State) (rawSize rawPrice : string) : State :=
  mkState (recipe st) (yield_ st) (loading st) (result st) (error st)
          (editingIndex st) rawSize rawPrice (expandedIndex st).

(** [saveEdit] ends the same way on two states: same completion, same
    alerts, same result left for the next render. *)
Definition SameOutcome (index : nat) (a b : State) : Prop :=
  fst (run (saveEdit index) a) = fst (run (saveEdit index) b) /\
  alerts (snd (run (saveEdit index) a)) = alerts (snd (run (saveEdit index) b)) /\
  result (pending (snd (run (saveEdit index) a))) =
    result (pending (snd (run (saveEdit index) b))).

(** The four ways a run of [saveEdit] ends: a bad size, a bad price, no
    line to read, or a saved result. *)
Inductive SaveEditRun (index : nat) (st : State) : Completion unit * Effects -> Prop :=
| RunBadSize :
    (isNaN (parseFloat (editPackageSize st))
     || (parseFloat (editPackageSize st) <=? 0)%float)%bool = true ->
    SaveEditRun index st (Normal tt, mkEffects st [invalidPackageSize])
| RunBadPrice :
    (isNaN (parseFloat (editPackageSize st))
     || (parseFloat (editPackageSize st) <=? 0)%float)%bool = false ->
    (isNaN (parseFloat (editPackagePrice st))
     || (parseFloat (editPackagePrice st) <? 0)%float)%bool = true ->
    SaveEditRun index st (Normal tt, mkEffects st [invalidPackagePrice])
| RunNoLine :
    (isNaN (parseFloat (editPackageSize st))
     || (parseFloat (editPackageSize st) <=? 0)%float)%bool = false ->
    (isNaN (parseFloat (editPackagePrice st))
     || (parseFloat (editPackagePrice st) <? 0)%float)%bool = false ->
    (forall res, result st = Some res -> nth_error (ingredients res) index = None) ->
    SaveEditRun index st (TypeError, mkEffects st [])
| RunSaved (res : Result) (ing : Ingredient) :
    (isNaN (parseFloat (editPackageSize st))
     || (parseFloat (editPackageSize st) <=? 0)%float)%bool = false ->
    (isNaN (parseFloat (editPackagePrice st))
     || (parseFloat (editPackagePrice st) <? 0)%float)%bool = false ->
    result st = Some res ->
    nth_error (ingredients res) index = Some ing ->
    let s := parseFloat (editPackageSize st) in
    let p := parseFloat (editPackagePrice st) in
    let line :=
      mkIngredient (ingredient ing) (quantity ing) (ing_unit ing)
        ((p / s) * quantity ing)%float (note ing) true
        (Some (mkPackageInfo (Number_toString s ++ displayUnitOf (ing_unit ing)) p
                             (p / s)%float (displayUnitOf (ing_unit ing)))) in
    let lines := assign (ingredients res) index line in
    SaveEditRun index st
      (Normal tt,
       mkEffects
         (mkState (recipe st) (yield_ st) (loading st)
            (Some (mkResult (recipe_name res) lines (sumCosts lines) (yield_count res)
                            (sumCosts lines / yield_count res)%float))
            (error st) None "" "" (expandedIndex st)) []).

(** Under the ignore-case flag a pattern letter matches the characters
    whose lower-case form is the lower-case form of the letter. *)
Definition matchesChr (a ch : ascii) : bool :=
  (Canonicalize true ch =? Canonicalize true a)%nat.

(** A character at which the number of a size text cannot go on. *)
Definition pointOrDigit (ch : ascii) : bool := (isDigit ch || Ascii.eqb ch ".")%bool.

(** A first letter of a unit token, in either case. *)
Definition startsToken (ch : ascii) : bool :=
  existsb (Ascii.eqb (lowerChar ch)) ["g"; "k"; "m"; "l"; "i"]%char.

(** A matcher for [r] calls its continuation only after a string of the
    language of [r]. *)
Definition SoundMatcher (ic : bool) (r : Regex) (m : Matcher) : Prop :=
  forall (x : MatchState) (c : Continuation) (z : MatchState),
    m x c = Some z ->
    exists w y, rest x = w ++ rest y /\ Lang ic r w /\ c y = Some z.

(** The state of the render that follows a handler. *)
Definition next {A : Type} (h : State -> Handler A) (st : State) : State :=
  pending (snd (run h st)).

(** The state [st] holding the result [res] and the given edit inputs. *)
Definition holding (st : State) (res : Result) (rawSize rawPrice : string) : State :=
  mkState (recipe st) (yield_ st) (loading st) (Some res) (error st)
          (editingIndex st) rawSize rawPrice (expandedIndex st).

(** The two checks of [saveEdit] let the inputs through. *)
Definition inputsPass (rawSize rawPrice : string) : bool :=
  (negb (isNaN (parseFloat rawSize) || (parseFloat rawSize <=? 0)%float)
   && negb (isNaN (parseFloat rawPrice) || (parseFloat rawPrice <? 0)%float))%bool.

(** The line [saveEdit] writes for the line [ing] and the inputs. *)
Definition editedLine (ing : Ingredient) (rawSize rawPrice : string) : Ingredient :=
  let s := parseFloat rawSize in
  let p := parseFloat rawPrice in
  mkIngredient (ingredient ing) (quantity ing) (ing_unit ing)
    ((p / s) * quantity ing)%float (note ing) true
    (Some (mkPackageInfo (Number_toString s ++ displayUnitOf (ing_unit ing)) p
                         (p / s)%float (displayUnitOf (ing_unit ing)))).

(** The state with another text in the error cell. *)
Definition withError (st : State) (message : string) : State :=
  mkState (recipe st) (yield_ st) (loading st) (result st) message
          (editingIndex st) (editPackageSize st) (editPackagePrice st)
          (expandedIndex st).

(** A number that is zero or above, as a binary64 datum. *)
Definition NonNegative (x : spec_float) : Prop :=
  match x with
  | S754_zero _ => True
  | S754_infinity neg => neg = false
  | S754_finite neg _ _ => neg = false
  | S754_nan => False
  end.



(** The value and the unit [parsePackageSize] computes from the number and
    the token it captured. *)
Definition sizeOf (num tok : string) : ParsedSize :=
  let unit := toLowerCase tok in
  let v := parseFloat num in
  let v := if String.eqb unit "kg" then (v * 1000)%float else v in
  let v := if String.eqb unit "l" then (v * 1000)%float else v in
  mkParsedSize v
    (if String.eqb unit "item" then "item"
     else if (String.eqb unit "ml" || String.eqb unit "l")%bool then "ml"
     else "g").

(** The text [startEdit] puts in the size input for a package size. *)
Definition sizeInputFor (sizeStr : string) : string :=
  match parsePackageSize sizeStr with
  | Normal (Some parsed) => Number_toString (value parsed)
  | _ => ""
  end.

(** A binary64 datum that is not below zero: NaN, a zero, or a positive
    number. *)
Definition NotNegative (x : spec_float) : Prop :=
  match x with
  | S754_nan => True
  | S754_zero _ => True
  | S754_infinity neg => neg = false
  | S754_finite neg _ _ => neg = false
  end.

(** The recipe after the oats are edited to a 500 g package at 4.00. *)
Definition cookiesEdited : Result :=
  mkResult (Some "Cookies")
    [mkIngredient "oats" 60%float "g" 0.48%float None true
       (Some (mkPackageInfo "500g" 4%float 0.008%float "g"));
     peanutButter]
    0.7%float 6%float (0.7 / 6)%float.

(** ** Properties of [saveEdit] *)

(** *** Number comparisons *)

Lemma Prim2SF_zero : Prim2SF 0%float = S754_zero false.
Proof. reflexivity. Qed.

Lemma SFcompare_finite_refl (b : bool) (m : positive) (e : Z) :
  SFcompare (S754_finite b m e) (S754_finite b m e) = Some Eq.
Proof.
  unfold SFcompare. destruct b; rewrite Z.compare_refl;
    rewrite ?Pos.compare_refl; try rewrite Pos.compare_cont_refl; reflexivity.
Qed.

(** A number above zero passes the size check of [saveEdit]. *)
Lemma positive_passes (s : Number) :
  (0 <? s)%float = true -> isNaN s = false /\ (s <=? 0)%float = false.
Proof.
  unfold isNaN, is_nan. rewrite ltb_spec, leb_spec, eqb_spec, Prim2SF_zero.
  destruct (Prim2SF s) as [[|]|[|]| |[|] m e]; unfold SFeqb;
    rewrite ?SFcompare_finite_refl; cbn; try discriminate; intros _;
    split; reflexivity.
Qed.

(** A number that is zero or above passes the price check. *)
Lemma nonnegative_passes (p : Number) :
  (0 <=? p)%float = true -> isNaN p = false /\ (p <? 0)%float = false.
Proof.
  unfold isNaN, is_nan. rewrite ltb_spec, leb_spec, eqb_spec, Prim2SF_zero.
  destruct (Prim2SF p) as [[|]|[|]| |[|] m e]; unfold SFeqb;
    rewrite ?SFcompare_finite_refl; cbn; try discriminate; intros _;
    split; reflexivity.
Qed.

(** *** Array assignment *)

Lemma length_assign {A : Type} (l : list A) (i : nat) (v : A) :
  List.length (assign l i v) = List.length l.
Proof.
  revert i; induction l as [|h tl IH]; intros [|i]; cbn; auto.
Qed.

Lemma nth_error_assign_eq {A : Type} (l : list A) (i : nat) (v old : A) :
  nth_error l i = Some old -> nth_error (assign l i v) i = Some v.
Proof.
  revert i; induction l as [|h tl IH]; intros [|i]; cbn; try discriminate; auto.
Qed.

Lemma nth_error_assign_ne {A : Type} (l : list A) (i j : nat) (v : A) :
  i <> j -> nth_error (assign l i v) j = nth_error l j.
Proof.
  revert i j; induction l as [|h tl IH]; intros [|i] [|j] Hij; cbn; auto.
  contradiction.
Qed.

(** *** The four ways [saveEdit] ends *)

Lemma saveEdit_run (index : nat) (st : State) :
  SaveEditRun index st (run (saveEdit index) st).
Proof.
  unfold run, saveEdit.
  destruct (isNaN (parseFloat (editPackageSize st))
            || (parseFloat (editPackageSize st) <=? 0)%float)%bool eqn:Hs.
  { unfold alert; cbn. apply RunBadSize; exact Hs. }
  destruct (isNaN (parseFloat (editPackagePrice st))
            || (parseFloat (editPackagePrice st) <? 0)%float)%bool eqn:Hp.
  { unfold alert; cbn. apply RunBadPrice; assumption. }
  destruct (result st) as [res|] eqn:Hres.
  - destruct (nth_error (ingredients res) index) as [ing|] eqn:Hing.
    + unfold bind, defined. rewrite Hing. cbn.
      now apply (RunSaved index st res ing).
    + unfold bind, defined. rewrite Hing.
      apply RunNoLine; auto.
      intros res' E. rewrite Hres in E. now inversion E; subst.
  - unfold bind, defined. apply RunNoLine; auto.
    intros res' E. rewrite Hres in E. discriminate.
Qed.

Lemma saveEdit_saves (index : nat) (st : State) (res : Result) (ing : Ingredient) :
  result st = Some res ->
  nth_error (ingredients res) index = Some ing ->
  (0 <? parseFloat (editPackageSize st))%float = true ->
  (0 <=? parseFloat (editPackagePrice st))%float = true ->
  let s := parseFloat (editPackageSize st) in
  let p := parseFloat (editPackagePrice st) in
  let line :=
    mkIngredient (ingredient ing) (quantity ing) (ing_unit ing)
      ((p / s) * quantity ing)%float (note ing) true
      (Some (mkPackageInfo (Number_toString s ++ displayUnitOf (ing_unit ing)) p
                           (p / s)%float (displayUnitOf (ing_unit ing)))) in
  let lines := assign (ingredients res) index line in
  Saves index st
    (mkResult (recipe_name res) lines (sumCosts lines) (yield_count res)
              (sumCosts lines / yield_count res)%float).
Proof.
  intros Hres Hing Hs Hp.
  apply positive_passes in Hs. apply nonnegative_passes in Hp.
  destruct Hs as [Hs1 Hs2], Hp as [Hp1 Hp2].
  unfold Saves, run, saveEdit.
  rewrite Hs1, Hs2, Hp1, Hp2, Hres. cbn.
  unfold bind, defined. rewrite Hing. reflexivity.
Qed.

(** What a successful run was given, and what it wrote. *)
Lemma Saves_inv (index : nat) (st : State) (res' : Result) :
  Saves index st res' ->
  exists res ing,
    result st = Some res /\
    nth_error (ingredients res) index = Some ing /\
    let s := parseFloat (editPackageSize st) in
    let p := parseFloat (editPackagePrice st) in
    let line :=
      mkIngredient (ingredient ing) (quantity ing) (ing_unit ing)
        ((p / s) * quantity ing)%float (note ing) true
        (Some (mkPackageInfo (Number_toString s ++ displayUnitOf (ing_unit ing)) p
                             (p / s)%float (displayUnitOf (ing_unit ing)))) in
    let lines := assign (ingredients res) index line in
    res' = mkResult (recipe_name res) lines (sumCosts lines) (yield_count res)
                    (sumCosts lines / yield_count res)%float.
Proof.
  unfold Saves. intros E.
  destruct (saveEdit_run index st) as [Hs|Hs Hp|Hs Hp Hn|res ing Hs Hp Hres Hing s p line lines];
    try discriminate E.
  exists res, ing. repeat split; auto.
  inversion E. reflexivity.
Qed.

(** Every run of [saveEdit] saves, fails with one of the two messages, or
    throws with the state untouched. *)
Lemma saveEdit_outcomes (index : nat) (st : State) :
  (exists res', Saves index st res') \/
  Fails index st invalidPackageSize \/
  Fails index st invalidPackagePrice \/
  run (saveEdit index) st = (TypeError, mkEffects st []).
Proof.
  unfold Saves, Fails.
  destruct (saveEdit_run index st) as [Hs|Hs Hp|Hs Hp Hn|res ing Hs Hp Hres Hing];
    cbn [snd alerts]; eauto.
Qed.

Lemma saves_cookies : Saves 0 (editing cookies 0 "500" "4.00") cookiesEdited.
Proof. vm_compute. reflexivity. Qed.

(** [startEdit] fills the inputs from the package of the line. *)
Example startEdit_cookies :
  let st' := pending (snd (run (startEdit 0)
                 (mkState "" "6" false (Some cookies) "" None "" "" (Some 0%nat)))) in
  editPackageSize st' = "454" /\ editPackagePrice st' = "3.50" /\
  editingIndex st' = Some 0%nat.
Proof. vm_compute. repeat split; reflexivity. Qed.

(** *** The claims on [saveEdit] *)

(** C1.  When the line at the index has package information, the size
    input parses to a number above zero and the price input to a number
    that is zero or above, [saveEdit] succeeds, and the line at the index
    of the new result is the old line with [cost] the unit price times the
    old quantity, [manually_adjusted] true, and a new [package_info]: the
    parsed size followed by the suffix of the line's unit, the parsed
    price, the unit price, and the unit.  For the three unit families the
    suffix is the line's unit itself. *)
Theorem saveEdit_rewrites_line :
  forall (st : State) (index : nat) (res : Result) (ing : Ingredient) (pkg : PackageInfo),
    result st = Some res ->
    nth_error (ingredients res) index = Some ing ->
    package_info ing = Some pkg ->
    (0 <? parseFloat (editPackageSize st))%float = true ->
    (0 <=? parseFloat (editPackagePrice st))%float = true ->
    let s := parseFloat (editPackageSize st) in
    let p := parseFloat (editPackagePrice st) in
    exists res',
      Saves index st res' /\
      nth_error (ingredients res') index =
        Some (mkIngredient (ingredient ing) (quantity ing) (ing_unit ing)
                ((p / s) * quantity ing)%float
                (note ing)
                true
                (Some (mkPackageInfo (Number_toString s ++ displayUnitOf (ing_unit ing))
                                     p (p / s)%float (displayUnitOf (ing_unit ing))))) /\
      (In (ing_unit ing) ["g"; "ml"; "item"] -> displayUnitOf (ing_unit ing) = ing_unit ing).
Proof.
  intros st index res ing pkg Hres Hing _ Hs Hp s p.
  eexists. split; [apply (saveEdit_saves index st res ing); assumption|].
  split.
  - cbn [ingredients]. eapply nth_error_assign_eq; eassumption.
  - intros [E|[E|[E|[]]]]; rewrite <- E; reflexivity.
Qed.

Lemma saveEdit_rewrites_line_witness :
  exists res',
    Saves 0 (editing cookies 0 "500" "4.00") res' /\
    nth_error (ingredients res') 0 =
      Some (mkIngredient "oats" 60%float "g" 0.48%float None true
              (Some (mkPackageInfo "500g" 4%float 0.008%float "g"))).
Proof.
  destruct (saveEdit_rewrites_line (editing cookies 0 "500" "4.00") 0 cookies oats
              (mkPackageInfo "454g" 3.5%float 0.0077%float "g")
              eq_refl eq_refl eq_refl eq_refl eq_refl) as [res' [H1 [H2 _]]].
  exists res'. split; [exact H1|]. rewrite H2. vm_compute. reflexivity.
Defined.

(** C2.  In every result that a successful [saveEdit] returns, [total_cost]
    is the sum of the [cost] of the lines of the new sequence (added from
    the left, starting at 0) and [unit_cost] is [total_cost] divided by
    [yield_count]. *)
Theorem saveEdit_totals :
  forall (index : nat) (st : State) (res' : Result),
    Saves index st res' ->
    total_cost res' =
      fold_left (fun sum ing => (sum + cost ing)%float) (ingredients res') 0%float /\
    unit_cost res' = (total_cost res' / yield_count res')%float.
Proof.
  intros index st res' H.
  destruct (Saves_inv index st res' H) as [res [ing [_ [_ E]]]].
  cbv zeta in E. subst res'. cbn. split; reflexivity.
Qed.

Lemma saveEdit_totals_witness :
  total_cost cookiesEdited =
    fold_left (fun sum ing => (sum + cost ing)%float) (ingredients cookiesEdited) 0%float /\
  unit_cost cookiesEdited = (total_cost cookiesEdited / yield_count cookiesEdited)%float.
Proof.
  exact (saveEdit_totals 0 (editing cookies 0 "500" "4.00") cookiesEdited saves_cookies).
Defined.

Lemma messages_differ : invalidPackageSize <> invalidPackagePrice.
Proof. discriminate. Qed.

(** C5.  [saveEdit] fails with the size message exactly when the size
    input does not parse to a number or parses to a number that is zero or
    below; otherwise it fails with the price message exactly when the price
    input does not parse to a number or parses to a number below zero.  So
    the size "0" fails, and with a valid size the price "-1" fails while
    the price "0" is accepted. *)
Theorem saveEdit_validation :
  forall (index : nat) (st : State),
    let s := parseFloat (editPackageSize st) in
    let p := parseFloat (editPackagePrice st) in
    (Fails index st invalidPackageSize <->
       isNaN s = true \/ (s <=? 0)%float = true) /\
    (~ Fails index st invalidPackageSize ->
       (Fails index st invalidPackagePrice <->
          isNaN p = true \/ (p <? 0)%float = true)) /\
    (editPackageSize st = "0" -> Fails index st invalidPackageSize) /\
    (~ Fails index st invalidPackageSize ->
       editPackagePrice st = "-1" -> Fails index st invalidPackagePrice) /\
    (editPackagePrice st = "0" -> ~ Fails index st invalidPackagePrice).
Proof.
  intros index st s p. subst s p.
  assert (Size : Fails index st invalidPackageSize <->
                 isNaN (parseFloat (editPackageSize st)) = true \/
                 (parseFloat (editPackageSize st) <=? 0)%float = true).
  { unfold Fails.
    destruct (saveEdit_run index st) as [Hs|Hs Hp|Hs Hp Hn|res ing Hs Hp Hres Hing];
      cbn [snd alerts].
    - split; [intros _; now apply orb_true_iff|reflexivity].
    - split; [intros E; inversion E|intros H; apply orb_true_iff in H; congruence].
    - split; [discriminate|intros H; apply orb_true_iff in H; congruence].
    - split; [discriminate|intros H; apply orb_true_iff in H; congruence]. }
  assert (Price : ~ Fails index st invalidPackageSize ->
                  (Fails index st invalidPackagePrice <->
                   isNaN (parseFloat (editPackagePrice st)) = true \/
                   (parseFloat (editPackagePrice st) <? 0)%float = true)).
  { unfold Fails.
    destruct (saveEdit_run index st) as [Hs|Hs Hp|Hs Hp Hn|res ing Hs Hp Hres Hing];
      cbn [snd alerts]; intros N.
    - now contradiction N.
    - split; [intros _; now apply orb_true_iff|reflexivity].
    - split; [discriminate|intros H; apply orb_true_iff in H; congruence].
    - split; [discriminate|intros H; apply orb_true_iff in H; congruence]. }
  repeat split; try apply Size; try (apply Price; assumption).
  - intros E. apply Size. right. rewrite E. reflexivity.
  - intros N E. apply Price; [exact N|]. right. rewrite E. reflexivity.
  - intros E F.
    assert (N : ~ Fails index st invalidPackageSize).
    { unfold Fails in *. rewrite F. intros G. inversion G. }
    apply (Price N) in F. rewrite E in F.
    destruct F as [F|F]; vm_compute in F; discriminate.
Qed.

Lemma saveEdit_validation_witness :
  Fails 0 (editing cookies 0 "0" "4.00") invalidPackageSize /\
  Fails 0 (editing cookies 0 "500" "-1") invalidPackagePrice /\
  ~ Fails 0 (editing cookies 0 "500" "0") invalidPackagePrice.
Proof.
  split; [|split].
  - exact (proj1 (proj2 (proj2 (saveEdit_validation 0 (editing cookies 0 "0" "4.00")))) eq_refl).
  - apply (proj1 (proj2 (proj2 (proj2 (saveEdit_validation 0 (editing cookies 0 "500" "-1")))))).
    + vm_compute. discriminate.
    + reflexivity.
  - exact (proj2 (proj2 (proj2 (proj2 (saveEdit_validation 0 (editing cookies 0 "500" "0"))))) eq_refl).
Defined.

(** C6.  When [saveEdit] fails with a validation message, the handler
    returns with no setter called: the state of the next render is the
    state it was run on, so the result, each of its lines and each
    [package_info] are what they were. *)
Theorem saveEdit_failure_keeps_state :
  forall (index : nat) (st : State) (msg : string),
    Fails index st msg ->
    fst (run (saveEdit index) st) = Normal tt /\
    pending (snd (run (saveEdit index) st)) = st /\
    result (pending (snd (run (saveEdit index) st))) = result st.
Proof.
  intros index st msg. unfold Fails.
  destruct (saveEdit_run index st) as [Hs|Hs Hp|Hs Hp Hn|res ing Hs Hp Hres Hing];
    cbn [fst snd alerts pending]; try discriminate; auto.
Qed.

Lemma saveEdit_failure_keeps_state_witness :
  result (pending (snd (run (saveEdit 0) (editing cookies 0 "0" "4.00")))) = Some cookies.
Proof.
  exact (proj2 (proj2 (saveEdit_failure_keeps_state 0 (editing cookies 0 "0" "4.00")
                         invalidPackageSize eq_refl))).
Defined.

(** C7.  A successful [saveEdit] keeps the number of lines; the name,
    quantity, unit and note of every line, the edited one included; every
    field of every other line; and [recipe_name] and [yield_count]. *)
Theorem saveEdit_frame :
  forall (index : nat) (st : State) (res res' : Result),
    result st = Some res ->
    Saves index st res' ->
    List.length (ingredients res') = List.length (ingredients res) /\
    recipe_name res' = recipe_name res /\
    yield_count res' = yield_count res /\
    forall (j : nat) (old : Ingredient),
      nth_error (ingredients res) j = Some old ->
      exists new,
        nth_error (ingredients res') j = Some new /\
        ingredient new = ingredient old /\
        quantity new = quantity old /\
        ing_unit new = ing_unit old /\
        note new = note old /\
        (j <> index -> new = old).
Proof.
  intros index st res res' Hres H.
  destruct (Saves_inv index st res' H) as [res0 [ing [Hres0 [Hing E]]]].
  cbv zeta in E. rewrite Hres in Hres0. inversion Hres0; subst res0; clear Hres0.
  subst res'. cbn [ingredients recipe_name yield_count].
  split; [apply length_assign|]. split; [reflexivity|]. split; [reflexivity|].
  intros j old Hold.
  destruct (Nat.eq_dec index j) as [->|Hne].
  - rewrite Hing in Hold. inversion Hold; subst old.
    eexists. split; [eapply nth_error_assign_eq; eassumption|].
    cbn. repeat split; auto. intros N; now contradiction N.
  - exists old. rewrite nth_error_assign_ne by assumption. repeat split; auto.
Qed.

Lemma saveEdit_frame_witness :
  List.length (ingredients cookiesEdited) = List.length (ingredients cookies) /\
  exists new, nth_error (ingredients cookiesEdited) 1 = Some new /\ new = peanutButter.
Proof.
  destruct (saveEdit_frame 0 (editing cookies 0 "500" "4.00") cookies cookiesEdited
              eq_refl saves_cookies) as [L [_ [_ F]]].
  split; [exact L|].
  destruct (F 1%nat peanutButter eq_refl) as [new [Hn [_ [_ [_ [_ Hd]]]]]].
  exists new. split; [exact Hn|]. apply Hd. discriminate.
Defined.

(** The two inputs are read through [parseFloat] only. *)
Lemma saveEdit_reads_parsed (index : nat) (st1 st2 : State) :
  result st1 = result st2 ->
  parseFloat (editPackageSize st1) = parseFloat (editPackageSize st2) ->
  parseFloat (editPackagePrice st1) = parseFloat (editPackagePrice st2) ->
  SameOutcome index st1 st2.
Proof.
  intros Hr Hs Hp.
  unfold SameOutcome, run, saveEdit. rewrite Hs, Hp.
  destruct (isNaN (parseFloat (editPackageSize st2))
            || (parseFloat (editPackageSize st2) <=? 0)%float)%bool;
    [cbn; auto|].
  destruct (isNaN (parseFloat (editPackagePrice st2))
            || (parseFloat (editPackagePrice st2) <? 0)%float)%bool;
    [cbn; auto|].
  unfold bind, defined. rewrite Hr.
  destruct (result st2) as [res|] eqn:E; [|cbn; rewrite Hr, E; auto].
  destruct (nth_error (ingredients res) index) as [ing|]; cbn; rewrite ?Hr, ?E; auto.
Qed.

(** C9.  What [saveEdit] returns depends only on the result, the index and
    the two inputs: on two states that agree on these, whatever the other
    cells hold, it completes the same way, shows the same alerts and leaves
    the same result. *)
Theorem saveEdit_deterministic :
  forall (index : nat) (st1 st2 : State),
    result st1 = result st2 ->
    editPackageSize st1 = editPackageSize st2 ->
    editPackagePrice st1 = editPackagePrice st2 ->
    SameOutcome index st1 st2.
Proof.
  intros index st1 st2 Hr Hs Hp.
  apply saveEdit_reads_parsed; [assumption|now rewrite Hs|now rewrite Hp].
Qed.

Lemma saveEdit_deterministic_witness :
  SameOutcome 0 (editing cookies 0 "500" "4.00")
    (mkState "oats" "12" true (Some cookies) "late" None "500" "4.00" (Some 1%nat)).
Proof.
  exact (saveEdit_deterministic 0 (editing cookies 0 "500" "4.00")
     (mkState "oats" "12" true (Some cookies) "late" None "500" "4.00" (Some 1%nat))
     eq_refl eq_refl eq_refl).
Defined.

(** C8.  First scenario: for a line that uses 60 of its unit, the inputs
    "500" and "4.00" give the unit price 0.008 and the line cost 0.48, and
    mark the line as adjusted.  Second scenario: in a recipe of two lines
    costing 0.48 and 0.22 that yields 6, an edit of line 0 that brings its
    cost to 0.6 gives the total 0.82 and the unit cost 0.82 / 6, and line 1
    still costs 0.22.  The decimals are the Number values they denote. *)
Theorem saveEdit_scenarios :
  (forall (st : State) (index : nat) (res : Result) (ing : Ingredient),
      result st = Some res ->
      nth_error (ingredients res) index = Some ing ->
      quantity ing = 60%float ->
      editPackageSize st = "500" ->
      editPackagePrice st = "4.00" ->
      exists res' line pkg,
        Saves index st res' /\
        nth_error (ingredients res') index = Some line /\
        package_info line = Some pkg /\
        cost_per_unit pkg = 0.008%float /\
        cost line = 0.48%float /\
        manually_adjusted line = true) /\
  (forall (st : State) (name : option string) (line0 line1 : Ingredient)
          (total unit : Number),
      result st = Some (mkResult name [line0; line1] total 6%float unit) ->
      cost line0 = 0.48%float ->
      cost line1 = 0.22%float ->
      (0 <? parseFloat (editPackageSize st))%float = true ->
      (0 <=? parseFloat (editPackagePrice st))%float = true ->
      (parseFloat (editPackagePrice st) / parseFloat (editPackageSize st)
         * quantity line0)%float = 0.6%float ->
      exists res' line0' line1',
        Saves 0 st res' /\
        ingredients res' = [line0'; line1'] /\
        cost line0' = 0.6%float /\
        total_cost res' = 0.82%float /\
        unit_cost res' = (0.82 / 6)%float /\
        line1' = line1 /\
        cost line1' = 0.22%float).
Proof.
  split.
  - intros st index res ing Hres Hing Hq Hs Hp.
    assert (S : (0 <? parseFloat (editPackageSize st))%float = true)
      by (rewrite Hs; reflexivity).
    assert (P : (0 <=? parseFloat (editPackagePrice st))%float = true)
      by (rewrite Hp; reflexivity).
    do 3 eexists.
    split; [apply (saveEdit_saves index st res ing Hres Hing S P)|].
    split; [cbn [ingredients]; eapply nth_error_assign_eq; eassumption|].
    cbn. rewrite Hs, Hp, Hq. repeat split; reflexivity.
  - intros st name line0 line1 total unit Hres H0 H1 S P Hc.
    eexists. eexists. exists line1.
    split; [apply (saveEdit_saves 0 st _ line0 Hres eq_refl S P)|].
    cbn. split; [reflexivity|].
    cbn. rewrite Hc, H1. repeat split; reflexivity.
Qed.

Lemma saveEdit_scenarios_witness :
  (exists res' line pkg,
      Saves 0 (editing cookies 0 "500" "4.00") res' /\
      nth_error (ingredients res') 0 = Some line /\
      package_info line = Some pkg /\
      cost_per_unit pkg = 0.008%float /\
      cost line = 0.48%float /\
      manually_adjusted line = true) /\
  (exists res' line0' line1',
      Saves 0 (editing cookiesEdited 0 "500" "5.00") res' /\
      ingredients res' = [line0'; line1'] /\
      cost line0' = 0.6%float /\
      total_cost res' = 0.82%float /\
      unit_cost res' = (0.82 / 6)%float /\
      line1' = peanutButter /\
      cost line1' = 0.22%float).
Proof.
  split.
  - exact (proj1 saveEdit_scenarios (editing cookies 0 "500" "4.00") 0%nat cookies oats
             eq_refl eq_refl eq_refl eq_refl eq_refl).
  - exact (proj2 saveEdit_scenarios (editing cookiesEdited 0 "500" "5.00")
             (Some "Cookies") _ peanutButter 0.7%float (0.7 / 6)%float
             eq_refl eq_refl eq_refl eq_refl eq_refl eq_refl).
Defined.

(** ** Properties of [parsePackageSize] *)

(** *** Strings *)

Lemma append_nil_r (s : string) : s ++ "" = s.
Proof. induction s as [|ch tl IH]; cbn; [reflexivity|now rewrite IH]. Qed.

Lemma append_assoc (a b c : string) : (a ++ b) ++ c = a ++ b ++ c.
Proof. induction a as [|ch tl IH]; cbn; [reflexivity|now rewrite IH]. Qed.

Lemma length_append (a b : string) :
  String.length (a ++ b) = (String.length a + String.length b)%nat.
Proof. induction a as [|ch tl IH]; cbn; [reflexivity|now rewrite IH]. Qed.

Lemma substring_prefix (a b : string) : substring 0 (String.length a) (a ++ b) = a.
Proof.
  induction a as [|ch tl IH]; cbn.
  - destruct b; reflexivity.
  - now rewrite IH.
Qed.

Lemma allChars_ext (p q : ascii -> bool) (s : string) :
  (forall ch, p ch = q ch) -> allChars p s = allChars q s.
Proof.
  intros E. induction s as [|ch tl IH]; cbn; [reflexivity|now rewrite E, IH].
Qed.

Lemma allChars_append (p : ascii -> bool) (a b : string) :
  allChars p (a ++ b) = (allChars p a && allChars p b)%bool.
Proof.
  induction a as [|ch tl IH]; cbn; [reflexivity|].
  now rewrite IH, andb_assoc.
Qed.

Lemma stopsAt_ext (p q : ascii -> bool) (s : string) :
  (forall ch, p ch = q ch) -> stopsAt p s -> stopsAt q s.
Proof. intros E. destruct s; cbn; [auto|]. now rewrite E. Qed.

(** *** Characters of the pattern *)

Ltac by_cases_on ch :=
  destruct ch as [[|] [|] [|] [|] [|] [|] [|] [|]]; reflexivity.

Lemma class_digits (ch : ascii) : classMatches true digits ch = isDigit ch.
Proof. by_cases_on ch. Qed.

Lemma class_whiteSpace (ch : ascii) : classMatches true whiteSpace ch = isWhiteSpace ch.
Proof. by_cases_on ch. Qed.

Lemma chr_point (ch : ascii) : matchesChr "." ch = Ascii.eqb ch ".".
Proof. by_cases_on ch. Qed.
Lemma chr_g (ch : ascii) : matchesChr "g" ch = Ascii.eqb (lowerChar ch) "g".
Proof. by_cases_on ch. Qed.
Lemma chr_k (ch : ascii) : matchesChr "k" ch = Ascii.eqb (lowerChar ch) "k".
Proof. by_cases_on ch. Qed.
Lemma chr_m (ch : ascii) : matchesChr "m" ch = Ascii.eqb (lowerChar ch) "m".
Proof. by_cases_on ch. Qed.
Lemma chr_l (ch : ascii) : matchesChr "l" ch = Ascii.eqb (lowerChar ch) "l".
Proof. by_cases_on ch. Qed.
Lemma chr_L (ch : ascii) : matchesChr "L" ch = Ascii.eqb (lowerChar ch) "l".
Proof. by_cases_on ch. Qed.
Lemma chr_i (ch : ascii) : matchesChr "i" ch = Ascii.eqb (lowerChar ch) "i".
Proof. by_cases_on ch. Qed.
Lemma chr_t (ch : ascii) : matchesChr "t" ch = Ascii.eqb (lowerChar ch) "t".
Proof. by_cases_on ch. Qed.
Lemma chr_e (ch : ascii) : matchesChr "e" ch = Ascii.eqb (lowerChar ch) "e".
Proof. by_cases_on ch. Qed.

(** *** The matcher on a run of class characters *)

Lemma compile_seq (ic : bool) (r1 r2 : Regex) (x : MatchState) (c : Continuation) :
  CompileSubpattern ic (Seq r1 r2) x c =
  CompileSubpattern ic r1 x (fun y => CompileSubpattern ic r2 y c).
Proof. reflexivity. Qed.

Lemma compile_grp (ic : bool) (n : nat) (r : Regex) (x : MatchState) (c : Continuation) :
  CompileSubpattern ic (Grp n r) x c =
  CompileSubpattern ic r x (fun y => c (capture n x y)).
Proof. reflexivity. Qed.

Lemma compile_rep (ic : bool) (min : nat) (max : option nat) (r : Regex)
    (x : MatchState) (c : Continuation) :
  CompileSubpattern ic (Rep min max r) x c =
  RepeatMatcher (CompileSubpattern ic r) (S (min + String.length (rest x))) min max x c.
Proof. reflexivity. Qed.

Lemma compile_chr (a : ascii) (x : MatchState) (c : Continuation) :
  CompileSubpattern true (Chr a) x c = CharacterSetMatcher (matchesChr a) x c.
Proof. reflexivity. Qed.

Lemma matcher_hit (p : ascii -> bool) (ch : ascii) (tl : string)
    (caps : list (option string)) (c : Continuation) :
  p ch = true ->
  CharacterSetMatcher p (mkMatchState (String ch tl) caps) c = c (mkMatchState tl caps).
Proof. intros H. unfold CharacterSetMatcher. cbn. now rewrite H. Qed.

Lemma matcher_miss (p : ascii -> bool) (s : string)
    (caps : list (option string)) (c : Continuation) :
  stopsAt p s ->
  CharacterSetMatcher p (mkMatchState s caps) c = None.
Proof.
  intros H. unfold CharacterSetMatcher. destruct s as [|ch tl]; cbn in *;
    [reflexivity|now rewrite H].
Qed.

(** A greedy quantifier on a class takes the whole run when what follows
    the run is accepted by the continuation. *)
Lemma repeat_class_greedy (p : ascii -> bool) (run : string) :
  forall (tl : string) (caps : list (option string)) (c : Continuation)
         (z : MatchState) (fuel min : nat),
    allChars p run = true ->
    stopsAt p tl ->
    (min <= String.length run)%nat ->
    (String.length run < fuel)%nat ->
    c (mkMatchState tl caps) = Some z ->
    RepeatMatcher (CharacterSetMatcher p) fuel min None
      (mkMatchState (run ++ tl) caps) c = Some z.
Proof.
  induction run as [|ch run IH]; intros tl caps c z fuel min Hall Hstop Hmin Hfuel Hc.
  - destruct fuel as [|fuel]; [cbn in Hfuel; lia|].
    assert (min = 0)%nat by (cbn in Hmin; lia). subst min.
    cbn [RepeatMatcher append Nat.eqb].
    rewrite matcher_miss by assumption. exact Hc.
  - destruct fuel as [|fuel]; [cbn in Hfuel; lia|].
    cbn in Hall. apply andb_true_iff in Hall. destruct Hall as [Hch Hall].
    cbn [RepeatMatcher append option_map].
    rewrite matcher_hit by assumption.
    cbn [rest String.length].
    replace (String.length (run ++ tl) =? S (String.length (run ++ tl)))%nat
      with false by (symmetry; apply Nat.eqb_neq; lia).
    rewrite andb_false_r.
    rewrite (IH tl caps c z fuel (Nat.pred min) Hall Hstop);
      [destruct (min =? 0)%nat; reflexivity| cbn in Hmin; lia | cbn in Hfuel; lia | exact Hc].
Qed.

Lemma class_plus (members : list ascii) (p : ascii -> bool) (run tl : string)
    (caps : list (option string)) (c : Continuation) (z : MatchState) :
  (forall ch, classMatches true members ch = p ch) ->
  run <> "" ->
  allChars p run = true ->
  stopsAt p tl ->
  c (mkMatchState tl caps) = Some z ->
  CompileSubpattern true (Rep 1 None (Cls members)) (mkMatchState (run ++ tl) caps) c
  = Some z.
Proof.
  intros E Hne Hall Hstop Hc. rewrite compile_rep. cbn [CompileSubpattern].
  apply repeat_class_greedy; auto.
  - rewrite (allChars_ext _ p); auto.
  - eapply stopsAt_ext; [|eassumption]. intros ch; symmetry; apply E.
  - destruct run; [congruence|cbn; lia].
  - cbn [rest]. rewrite length_append. lia.
Qed.

Lemma class_star (members : list ascii) (p : ascii -> bool) (run tl : string)
    (caps : list (option string)) (c : Continuation) (z : MatchState) :
  (forall ch, classMatches true members ch = p ch) ->
  allChars p run = true ->
  stopsAt p tl ->
  c (mkMatchState tl caps) = Some z ->
  CompileSubpattern true (Rep 0 None (Cls members)) (mkMatchState (run ++ tl) caps) c
  = Some z.
Proof.
  intros E Hall Hstop Hc. rewrite compile_rep. cbn [CompileSubpattern].
  apply repeat_class_greedy; auto.
  - rewrite (allChars_ext _ p); auto.
  - eapply stopsAt_ext; [|eassumption]. intros ch; symmetry; apply E.
  - lia.
  - cbn [rest]. rewrite length_append. lia.
Qed.

Lemma capture_prefix (n : nat) (w r : string) (cx cy : list (option string)) :
  capture n (mkMatchState (w ++ r) cx) (mkMatchState r cy) =
  mkMatchState r (setNth n (Some w) None cy).
Proof.
  unfold capture. cbn [rest captures]. rewrite length_append.
  replace (String.length w + String.length r - String.length r)%nat
    with (String.length w) by lia.
  now rewrite substring_prefix.
Qed.

(** *** The pattern on a package size *)

Lemma stops_digit (s : string) : stopsAt pointOrDigit s -> stopsAt isDigit s.
Proof.
  destruct s as [|ch tl]; cbn; [auto|]. unfold pointOrDigit.
  intros H. now apply orb_false_iff in H.
Qed.

Lemma stops_point (s : string) : stopsAt pointOrDigit s -> stopsAt (matchesChr ".") s.
Proof.
  destruct s as [|ch tl]; [auto|]. unfold stopsAt, pointOrDigit.
  intros H. rewrite chr_point. now apply orb_false_iff in H.
Qed.

(** The number of a size text, followed by something that is neither a
    digit nor a point, is matched whole by [\d+(?:\.\d+)?]. *)
Lemma number_part (num tl : string) (caps : list (option string))
    (c : Continuation) (z : MatchState) :
  DecimalText num ->
  stopsAt pointOrDigit tl ->
  c (mkMatchState tl caps) = Some z ->
  CompileSubpattern true
    (Seq (Rep 1 None (Cls digits))
         (Rep 0 (Some 1) (Seq (Chr ".") (Rep 1 None (Cls digits)))))
    (mkMatchState (num ++ tl) caps) c = Some z.
Proof.
  intros [ip Hne Hip|ip fp Hne Hip Hnf Hfp] Hstop Hc; rewrite compile_seq.
  - apply (class_plus digits isDigit); auto using class_digits, stops_digit.
    rewrite compile_rep. cbn [RepeatMatcher Nat.add rest Nat.eqb].
    rewrite compile_seq, compile_chr, matcher_miss by now apply stops_point.
    exact Hc.
  - rewrite append_assoc. cbn [append].
    apply (class_plus digits isDigit); auto using class_digits.
    { reflexivity. }
    rewrite compile_rep. cbn [RepeatMatcher Nat.add rest Nat.eqb].
    rewrite compile_seq, compile_chr, matcher_hit by reflexivity.
    rewrite (class_plus digits isDigit fp tl caps _ z);
      auto using class_digits, stops_digit.
    cbn [rest String.length andb option_map Nat.pred].
    rewrite length_append.
    replace (String.length tl =? S (String.length fp + String.length tl))%nat
      with false by (symmetry; apply Nat.eqb_neq; lia).
    destruct (String.length fp + String.length tl)%nat; exact Hc.
Qed.

(** A token lowers to one of the five unit tokens only if it is that
    token up to the case of its letters. *)
Lemma lower_nil (s : string) : toLowerCase s = "" -> s = "".
Proof. destruct s; [reflexivity|discriminate]. Qed.

Lemma lower_cons (s : string) (a : ascii) (t : string) :
  toLowerCase s = String a t ->
  exists ch tl, s = String ch tl /\ lowerChar ch = a /\ toLowerCase tl = t.
Proof.
  destruct s as [|ch tl]; [discriminate|].
  cbn. intros E. inversion E. eauto.
Qed.

Ltac token_chars H :=
  repeat match type of H with
         | toLowerCase _ = String _ _ =>
             let ch := fresh "ch" in
             let tl := fresh "tl" in
             let E := fresh "E" in
             apply lower_cons in H; destruct H as [ch [tl [-> [E H]]]]
         | toLowerCase _ = EmptyString => apply lower_nil in H; subst
         end.

(** The alternatives of the pattern match a unit token whole, whatever
    follows it. *)
Lemma token_part (tok post : string) (caps : list (option string))
    (c : Continuation) (z : MatchState) :
  UnitToken tok ->
  c (mkMatchState post caps) = Some z ->
  CompileSubpattern true
    (Alt (Chr "g")
    (Alt (Seq (Chr "k") (Chr "g"))
    (Alt (Seq (Chr "m") (Chr "l"))
    (Alt (Chr "L")
         (Seq (Chr "i") (Seq (Chr "t") (Seq (Chr "e") (Chr "m"))))))))
    (mkMatchState (tok ++ post) caps) c = Some z.
Proof.
  intros [H|[H|[H|[H|[H|[]]]]]] Hc; symmetry in H; token_chars H;
    cbn [CompileSubpattern append]; fold (matchesChr "g"); fold (matchesChr "k");
    fold (matchesChr "m"); fold (matchesChr "l"); fold (matchesChr "L");
    fold (matchesChr "i"); fold (matchesChr "t"); fold (matchesChr "e");
    unfold CharacterSetMatcher; cbn [rest captures];
    rewrite ?chr_g, ?chr_k, ?chr_m, ?chr_l, ?chr_L, ?chr_i, ?chr_t, ?chr_e;
    repeat match goal with E : lowerChar _ = _ |- _ => rewrite E; clear E end;
    cbn; rewrite Hc; reflexivity.
Qed.

Lemma token_head (tok : string) :
  UnitToken tok -> exists ch tl, tok = String ch tl /\ startsToken ch = true.
Proof.
  intros [H|[H|[H|[H|[H|[]]]]]]; symmetry in H;
    apply lower_cons in H; destruct H as [ch [tl [-> [E _]]]];
    exists ch, tl; (split; [reflexivity|]); unfold startsToken; rewrite E; reflexivity.
Qed.

Lemma letter_stops (ch : ascii) :
  startsToken ch = true -> pointOrDigit ch = false /\ isWhiteSpace ch = false.
Proof.
  destruct ch as [[|] [|] [|] [|] [|] [|] [|] [|]];
    intros H; try discriminate H; split; reflexivity.
Qed.

Lemma space_stops (ch : ascii) : isWhiteSpace ch = true -> pointOrDigit ch = false.
Proof.
  destruct ch as [[|] [|] [|] [|] [|] [|] [|] [|]];
    intros H; try discriminate H; reflexivity.
Qed.

Lemma token_stops_space (tok post : string) :
  UnitToken tok -> stopsAt isWhiteSpace (tok ++ post).
Proof.
  intros H. destruct (token_head tok H) as [ch [tl [-> Hch]]].
  cbn. now apply letter_stops.
Qed.

Lemma space_token_stops_number (ws tok post : string) :
  allChars isWhiteSpace ws = true -> UnitToken tok ->
  stopsAt pointOrDigit (ws ++ tok ++ post).
Proof.
  intros Hws H. destruct ws as [|ch ws].
  - destruct (token_head tok H) as [ch [tl [-> Hch]]].
    cbn. now apply letter_stops.
  - cbn in *. apply andb_true_iff in Hws. now apply space_stops.
Qed.

(** An attempt at the start of a size text matches the text and captures
    its number and its token. *)
Lemma matchAt_size (num ws tok post : string) :
  DecimalText num ->
  allChars isWhiteSpace ws = true ->
  UnitToken tok ->
  matchAt true sizePattern (num ++ ws ++ tok ++ post) =
  Some (mkMatchState post [Some (num ++ ws ++ tok); Some num; Some tok]).
Proof.
  intros Hnum Hws Htok. unfold matchAt, sizePattern.
  rewrite compile_grp, compile_seq, compile_grp.
  apply number_part; [assumption|now apply space_token_stops_number|].
  rewrite capture_prefix. cbn [setNth]. rewrite compile_seq.
  apply (class_star whiteSpace isWhiteSpace);
    [apply class_whiteSpace|assumption|now apply token_stops_space|].
  rewrite compile_grp.
  apply token_part; [assumption|].
  rewrite capture_prefix. cbn [setNth].
  replace (num ++ ws ++ tok ++ post) with ((num ++ ws ++ tok) ++ post)
    by now rewrite !append_assoc.
  now rewrite capture_prefix.
Qed.

Lemma exec_hit (ic : bool) (r : Regex) (s : string) (y : MatchState) :
  matchAt ic r s = Some y -> exec ic r s = Some (captures y).
Proof. intros H. destruct s; cbn [exec]; now rewrite H. Qed.

Lemma match_size (num ws tok : string) :
  DecimalText num ->
  allChars isWhiteSpace ws = true ->
  UnitToken tok ->
  String_match true sizePattern (num ++ ws ++ tok) =
  Some [Some (num ++ ws ++ tok); Some num; Some tok].
Proof.
  intros Hnum Hws Htok. unfold String_match.
  rewrite <- (append_nil_r tok) at 1.
  now rewrite (exec_hit _ _ _ _ (matchAt_size num ws tok "" Hnum Hws Htok)).
Qed.

(** C3.  On a sign-free decimal number, optional white space and a unit
    token in any case, [parsePackageSize] succeeds; with [m] the Number
    that the number parses to, it returns [m * 1000] in "g" for kg,
    [m * 1000] in "ml" for l, [m] in "g" for g, [m] in "ml" for ml and [m]
    in "item" for item.  In particular "454g" gives 454 g, "1kg" gives
    1000 g, "1L" gives 1000 ml and "12 item" gives 12 item. *)
Theorem parsePackageSize_normalizes :
  (forall (num ws tok : string),
      DecimalText num ->
      allChars isWhiteSpace ws = true ->
      let m := parseFloat num in
      (toLowerCase tok = "kg" ->
         parsePackageSize (num ++ ws ++ tok)
         = Normal (Some (mkParsedSize (m * 1000)%float "g"))) /\
      (toLowerCase tok = "l" ->
         parsePackageSize (num ++ ws ++ tok)
         = Normal (Some (mkParsedSize (m * 1000)%float "ml"))) /\
      (toLowerCase tok = "g" ->
         parsePackageSize (num ++ ws ++ tok) = Normal (Some (mkParsedSize m "g"))) /\
      (toLowerCase tok = "ml" ->
         parsePackageSize (num ++ ws ++ tok) = Normal (Some (mkParsedSize m "ml"))) /\
      (toLowerCase tok = "item" ->
         parsePackageSize (num ++ ws ++ tok) = Normal (Some (mkParsedSize m "item")))) /\
  parsePackageSize "454g" = Normal (Some (mkParsedSize 454%float "g")) /\
  parsePackageSize "1kg" = Normal (Some (mkParsedSize 1000%float "g")) /\
  parsePackageSize "1L" = Normal (Some (mkParsedSize 1000%float "ml")) /\
  parsePackageSize "12 item" = Normal (Some (mkParsedSize 12%float "item")).
Proof.
  split; [|repeat split; vm_compute; reflexivity].
  intros num ws tok Hnum Hws m.
  repeat split; intros H; unfold parsePackageSize;
    (rewrite match_size; [|assumption|assumption|unfold UnitToken; rewrite H; cbn; tauto]);
    cbn [nth]; rewrite H; reflexivity.
Qed.

Lemma parsePackageSize_normalizes_witness :
  parsePackageSize "1.5  Kg" = Normal (Some (mkParsedSize 1500%float "g")) /\
  parsePackageSize "0.75L" = Normal (Some (mkParsedSize 750%float "ml")).
Proof.
  split.
  - refine (eq_trans
      (proj1 (proj1 parsePackageSize_normalizes "1.5" "  " "Kg"
                (DecimalFraction "1" "5" _ eq_refl _ eq_refl) eq_refl) eq_refl) _);
      [discriminate|discriminate|vm_compute; reflexivity].
  - refine (eq_trans
      (proj1 (proj2 (proj1 parsePackageSize_normalizes "0.75" "" "L"
                (DecimalFraction "0" "75" _ eq_refl _ eq_refl) eq_refl)) eq_refl) _);
      [discriminate|discriminate|vm_compute; reflexivity].
Defined.

(** *** What the matcher matches is in the language of the pattern *)

Lemma repeat_sound (ic : bool) (r : Regex) (m : Matcher) :
  SoundMatcher ic r m ->
  forall (fuel min : nat) (max : option nat),
    SoundMatcher ic (Rep min max r) (RepeatMatcher m fuel min max).
Proof.
  intros Hm fuel. induction fuel as [|fuel IH]; intros min max x c z H.
  - destruct max as [[|k]|]; cbn in H; try discriminate.
    exists "", x. repeat split; auto. apply LangRepStop; auto.
  - assert (Stop : c x = Some z ->
              min = 0%nat \/ max = Some 0%nat ->
              exists w y, rest x = w ++ rest y /\ Lang ic (Rep min max r) w /\ c y = Some z).
    { intros Hc Hz. exists "", x. repeat split; auto. now apply LangRepStop. }
    assert (Step : forall b : bool, max <> Some 0%nat ->
              m x (fun y =>
                     if (b && (String.length (rest y) =? String.length (rest x))%nat)%bool
                     then None
                     else RepeatMatcher m fuel (Nat.pred min) (option_map Nat.pred max) y c)
              = Some z ->
              exists w y, rest x = w ++ rest y /\ Lang ic (Rep min max r) w /\ c y = Some z).
    { intros b Hmax Hd. apply Hm in Hd. destruct Hd as [w1 [y1 [E1 [L1 Hd]]]].
      destruct (b && (String.length (rest y1) =? String.length (rest x))%nat)%bool;
        [discriminate|].
      apply IH in Hd. destruct Hd as [w2 [y2 [E2 [L2 Hc]]]].
      exists (w1 ++ w2), y2. repeat split; auto.
      - now rewrite E1, E2, append_assoc.
      - now apply LangRepStep. }
    destruct max as [[|k]|]; cbn [RepeatMatcher] in H.
    + apply Stop; auto.
    + destruct (min =? 0)%nat eqn:Emin.
      * match type of H with
        | match ?e with _ => _ end = _ => destruct e eqn:Ed
        end.
        -- inversion H; subst. apply (Step true); [discriminate|exact Ed].
        -- apply Stop; auto. left. now apply Nat.eqb_eq.
      * apply (Step false); [discriminate|exact H].
    + destruct (min =? 0)%nat eqn:Emin.
      * match type of H with
        | match ?e with _ => _ end = _ => destruct e eqn:Ed
        end.
        -- inversion H; subst. apply (Step true); [discriminate|exact Ed].
        -- apply Stop; auto. left. now apply Nat.eqb_eq.
      * apply (Step false); [discriminate|exact H].
Qed.

Lemma compile_sound (ic : bool) (r : Regex) :
  SoundMatcher ic r (CompileSubpattern ic r).
Proof.
  induction r as [a|members|r1 IH1 r2 IH2|r1 IH1 r2 IH2|min max r IH|n r IH];
    intros x c z H; cbn [CompileSubpattern] in H.
  - unfold CharacterSetMatcher in H. destruct x as [[|ch tl] caps]; cbn in H;
      [discriminate|].
    destruct (Canonicalize ic ch =? Canonicalize ic a)%nat eqn:E; [|discriminate].
    exists (String ch ""), (mkMatchState tl caps). repeat split; auto.
    apply LangChr. now apply Nat.eqb_eq.
  - unfold CharacterSetMatcher in H. destruct x as [[|ch tl] caps]; cbn in H;
      [discriminate|].
    destruct (classMatches ic members ch) eqn:E; [|discriminate].
    exists (String ch ""), (mkMatchState tl caps). repeat split; auto.
    now apply LangCls.
  - apply IH1 in H. destruct H as [w1 [y1 [E1 [L1 H]]]].
    apply IH2 in H. destruct H as [w2 [y2 [E2 [L2 H]]]].
    exists (w1 ++ w2), y2. repeat split; auto.
    + now rewrite E1, E2, append_assoc.
    + now apply LangSeq.
  - destruct (CompileSubpattern ic r1 x c) eqn:E1.
    + inversion H; subst. apply IH1 in E1. destruct E1 as [w [y [E [L Hc]]]].
      exists w, y. repeat split; auto. now apply LangAltL.
    + apply IH2 in H. destruct H as [w [y [E [L Hc]]]].
      exists w, y. repeat split; auto. now apply LangAltR.
  - apply (repeat_sound ic r _ IH) in H. exact H.
  - apply IH in H. destruct H as [w [y [E [L Hc]]]].
    exists w, (capture n x y). repeat split; auto. now apply LangGrp.
Qed.

Lemma matchAt_sound (ic : bool) (r : Regex) (s : string) (y : MatchState) :
  matchAt ic r s = Some y -> exists w, s = w ++ rest y /\ Lang ic r w.
Proof.
  unfold matchAt. intros H. apply compile_sound in H.
  destruct H as [w [y' [E [L Hc]]]]. inversion Hc; subst.
  exists w. split; [exact E|]. now inversion L.
Qed.

(** *** The language of the pattern is the grammar *)

Lemma lang_seq_inv (ic : bool) (r1 r2 : Regex) (w : string) :
  Lang ic (Seq r1 r2) w ->
  exists w1 w2, w = w1 ++ w2 /\ Lang ic r1 w1 /\ Lang ic r2 w2.
Proof. intros H. inversion H; subst. eauto. Qed.

Lemma lang_alt_inv (ic : bool) (r1 r2 : Regex) (w : string) :
  Lang ic (Alt r1 r2) w -> Lang ic r1 w \/ Lang ic r2 w.
Proof. intros H. inversion H; subst; auto. Qed.

Lemma lang_grp_inv (ic : bool) (n : nat) (r : Regex) (w : string) :
  Lang ic (Grp n r) w -> Lang ic r w.
Proof. intros H. now inversion H. Qed.

Lemma lang_chr_inv (a : ascii) (w : string) :
  Lang true (Chr a) w -> exists ch, w = String ch "" /\ matchesChr a ch = true.
Proof.
  intros H. inversion H; subst. eexists. split; [reflexivity|].
  unfold matchesChr. now apply Nat.eqb_eq.
Qed.

Lemma lang_class_run (members : list ascii) (w : string) :
  forall min : nat,
    Lang true (Rep min None (Cls members)) w ->
    allChars (classMatches true members) w = true /\ (min <= String.length w)%nat.
Proof.
  intros min H. remember (Rep min None (Cls members)) as r eqn:E.
  revert min E. induction H; intros m E; try discriminate E.
  - inversion E; subst. destruct H as [->|H]; [|discriminate H].
    split; [reflexivity|cbn; lia].
  - inversion E; subst. clear IHLang1.
    destruct (IHLang2 (Nat.pred m) eq_refl) as [A L].
    match goal with
    | L1 : Lang true (Cls members) _ |- _ => inversion L1 as [| ? ch Hch | | | | | |]; subst
    end.
    cbn. rewrite Hch, A. split; [reflexivity|lia].
Qed.

Lemma lang_digits (w : string) :
  Lang true (Rep 1 None (Cls digits)) w -> w <> "" /\ allChars isDigit w = true.
Proof.
  intros H. apply lang_class_run in H. destruct H as [A L]. split.
  - intros ->. cbn in L. lia.
  - rewrite <- A. apply allChars_ext. intros ch. symmetry. apply class_digits.
Qed.

Lemma lang_option (r : Regex) (w : string) :
  Lang true (Rep 0 (Some 1) r) w -> w = "" \/ Lang true r w.
Proof.
  intros H. inversion H; subst; [now left|]. right.
  cbn in *.
  match goal with
  | L : Lang true (Rep 0 (Some 0) r) _ |- _ => inversion L; subst
  end.
  - now rewrite append_nil_r.
  - contradiction.
Qed.

Lemma lang_number (w : string) :
  Lang true
    (Seq (Rep 1 None (Cls digits))
         (Rep 0 (Some 1) (Seq (Chr ".") (Rep 1 None (Cls digits))))) w ->
  DecimalText w.
Proof.
  intros H. apply lang_seq_inv in H. destruct H as [ip [fr [-> [Hip Hfr]]]].
  apply lang_digits in Hip. destruct Hip as [Hne Hip].
  apply lang_option in Hfr. destruct Hfr as [->|Hfr].
  - rewrite append_nil_r. now apply DecimalInteger.
  - apply lang_seq_inv in Hfr. destruct Hfr as [pt [fp [-> [Hpt Hfp]]]].
    apply lang_chr_inv in Hpt. destruct Hpt as [ch [-> Hch]].
    rewrite chr_point in Hch. apply Ascii.eqb_eq in Hch. subst ch.
    apply lang_digits in Hfp. destruct Hfp as [Hnf Hfp].
    now apply (DecimalFraction ip fp).
Qed.

Ltac chr_inv H :=
  let ch := fresh "ch" in
  let E := fresh "E" in
  apply lang_chr_inv in H; destruct H as [ch [-> E]];
  rewrite ?chr_g, ?chr_k, ?chr_m, ?chr_l, ?chr_L, ?chr_i, ?chr_t, ?chr_e in E;
  apply Ascii.eqb_eq in E.

Ltac seq_inv H :=
  let w1 := fresh "w" in
  let w2 := fresh "w" in
  let H1 := fresh "H" in
  let H2 := fresh "H" in
  apply lang_seq_inv in H; destruct H as [w1 [w2 [-> [H1 H2]]]].

Lemma lang_token (w : string) :
  Lang true
    (Alt (Chr "g")
    (Alt (Seq (Chr "k") (Chr "g"))
    (Alt (Seq (Chr "m") (Chr "l"))
    (Alt (Chr "L")
         (Seq (Chr "i") (Seq (Chr "t") (Seq (Chr "e") (Chr "m")))))))) w ->
  UnitToken w.
Proof.
  intros H. unfold UnitToken, unitTokens.
  repeat (apply lang_alt_inv in H; destruct H as [H|H]);
    repeat match goal with
           | L : Lang true (Seq _ _) _ |- _ => seq_inv L
           | L : Lang true (Chr _) _ |- _ => chr_inv L
           end;
    cbn;
    repeat match goal with E : lowerChar _ = _ |- _ => rewrite E; clear E end;
    auto 8.
Qed.

Lemma lang_size (w : string) : Lang true sizePattern w -> SizeText w.
Proof.
  unfold sizePattern. intros H.
  apply lang_seq_inv in H. destruct H as [num [r1 [-> [Hnum H]]]].
  apply lang_grp_inv, lang_number in Hnum.
  apply lang_seq_inv in H. destruct H as [ws [tok [-> [Hws Htok]]]].
  apply lang_class_run in Hws. destruct Hws as [Hws _].
  apply lang_grp_inv, lang_token in Htok.
  apply SizeText_intro; auto.
  rewrite <- Hws. apply allChars_ext. intros ch. symmetry. apply class_whiteSpace.
Qed.

(** *** Where [exec] finds a match *)

Lemma exec_none (ic : bool) (r : Regex) (s : string) :
  exec ic r s = None ->
  forall pre suf, s = pre ++ suf -> matchAt ic r suf = None.
Proof.
  induction s as [|ch tl IH]; intros H pre suf E.
  - destruct pre; [|discriminate E]. cbn in E. subst suf.
    cbn [exec] in H. destruct (matchAt ic r ""); [discriminate|reflexivity].
  - cbn [exec] in H. destruct (matchAt ic r (String ch tl)) eqn:M; [discriminate|].
    destruct pre as [|ch' pre]; cbn in E.
    + now subst suf.
    + inversion E; subst. now apply (IH H pre suf).
Qed.

Lemma exec_some (ic : bool) (r : Regex) (s : string) (caps : list (option string)) :
  exec ic r s = Some caps ->
  exists pre suf y, s = pre ++ suf /\ matchAt ic r suf = Some y /\ caps = captures y.
Proof.
  induction s as [|ch tl IH]; intros H; cbn [exec] in H.
  - destruct (matchAt ic r "") as [y|] eqn:M; [|discriminate].
    inversion H; subst. now exists "", "", y.
  - destruct (matchAt ic r (String ch tl)) as [y|] eqn:M.
    + inversion H; subst. now exists "", (String ch tl), y.
    + destruct (IH H) as [pre [suf [y [E [My Ec]]]]].
      exists (String ch pre), suf, y. cbn. now rewrite E.
Qed.

Lemma SizeText_matchAt (w post : string) :
  SizeText w ->
  exists num tok,
    matchAt true sizePattern (w ++ post) =
    Some (mkMatchState post [Some w; Some num; Some tok]).
Proof.
  intros [num ws tok Hnum Hws Htok]. exists num, tok.
  rewrite <- (matchAt_size num ws tok post Hnum Hws Htok).
  now rewrite !append_assoc.
Qed.

(** A match of the pattern is a size text, with both groups captured. *)
Lemma matchAt_inv (s : string) (y : MatchState) :
  matchAt true sizePattern s = Some y ->
  exists w num tok,
    s = w ++ rest y /\ SizeText w /\ captures y = [Some w; Some num; Some tok].
Proof.
  intros H. destruct (matchAt_sound _ _ _ _ H) as [w [E L]].
  apply lang_size in L.
  destruct (SizeText_matchAt w (rest y) L) as [num [tok M]].
  rewrite <- E, H in M. inversion M as [My].
  exists w, num, tok. repeat split; auto.
Qed.

Lemma matchAt_parts (s : string) (y : MatchState) :
  matchAt true sizePattern s = Some y ->
  exists num ws tok,
    s = num ++ ws ++ tok ++ rest y /\
    DecimalText num /\ allChars isWhiteSpace ws = true /\ UnitToken tok /\
    captures y = [Some (num ++ ws ++ tok); Some num; Some tok].
Proof.
  intros H. destruct (matchAt_sound _ _ _ _ H) as [w [E L]].
  apply lang_size in L. destruct L as [num ws tok Hnum Hws Htok].
  pose proof (matchAt_size num ws tok (rest y) Hnum Hws Htok) as M.
  rewrite !append_assoc in E. rewrite <- E, H in M. inversion M as [My].
  exists num, ws, tok. repeat split; auto.
Qed.

Lemma parsePackageSize_none (s : string) :
  parsePackageSize s = Normal None <-> String_match true sizePattern s = None.
Proof.
  unfold parsePackageSize. destruct (String_match true sizePattern s) as [m|].
  - split; [|discriminate].
    destruct (nth 1 m None), (nth 2 m None); discriminate.
  - split; reflexivity.
Qed.

Lemma contains_digit (s : string) :
  ContainsSizeText s -> allChars notDigit s = false.
Proof.
  intros [pre [w [post [-> [num ws tok Hnum _ _]]]]].
  rewrite !allChars_append.
  assert (N : allChars notDigit num = false).
  { destruct Hnum as [ip Hne Hip|ip fp Hne Hip _ _];
      (destruct ip as [|ch ip]; [congruence|]);
      cbn in Hip; apply andb_true_iff in Hip; destruct Hip as [Hch _];
      cbn; unfold notDigit; now rewrite Hch. }
  rewrite N. cbn. now rewrite andb_false_r.
Qed.

Lemma starts_matchAt (s : string) :
  StartsSizeText s <-> matchAt true sizePattern s <> None.
Proof.
  split.
  - intros [w [rest [-> Hw]]].
    destruct (SizeText_matchAt w rest Hw) as [num [tok M]].
    rewrite M. discriminate.
  - intros N. destruct (matchAt true sizePattern s) as [y|] eqn:M; [|congruence].
    apply matchAt_inv in M. destruct M as [w [num [tok [E [Hw _]]]]].
    now exists w, (rest y).
Qed.

(** The search passes over the positions at which no size text starts. *)
Lemma exec_leftmost (pre s : string) :
  Leftmost pre s ->
  exec true sizePattern (pre ++ s) = exec true sizePattern s.
Proof.
  induction pre as [|ch pre IH]; intros L; [reflexivity|].
  cbn [append exec].
  destruct (matchAt true sizePattern (String ch (pre ++ s))) as [y|] eqn:M.
  - exfalso. apply (L "" (String ch pre) eq_refl); [discriminate|].
    apply starts_matchAt. cbn [append]. rewrite M. discriminate.
  - apply IH. intros p1 p2 E N. apply (L (String ch p1) p2); [cbn; now rewrite E|exact N].
Qed.

(** A match found by the search is found at the first position at which a
    size text starts. *)
Lemma exec_first (s : string) (caps : list (option string)) :
  exec true sizePattern s = Some caps ->
  exists pre suf y,
    s = pre ++ suf /\ matchAt true sizePattern suf = Some y /\
    caps = captures y /\ Leftmost pre suf.
Proof.
  assert (Nil : forall suf, Leftmost "" suf).
  { intros suf p1 p2 E N. destruct p1; [cbn in E; congruence|discriminate E]. }
  induction s as [|ch tl IH]; intros H; cbn [exec] in H.
  - destruct (matchAt true sizePattern "") as [y|] eqn:M; [|discriminate].
    inversion H; subst. exists "", "", y. repeat split; auto.
  - destruct (matchAt true sizePattern (String ch tl)) as [y|] eqn:M.
    + inversion H; subst. exists "", (String ch tl), y. repeat split; auto.
    + destruct (IH H) as [pre [suf [y [E [My [Ec L]]]]]].
      exists (String ch pre), suf, y. repeat split; auto.
      * cbn. now rewrite E.
      * intros p1 p2 E2 N S. destruct p1 as [|c p1]; cbn in E2.
        -- subst p2. apply starts_matchAt in S. apply S.
           cbn [append]. now rewrite <- E.
        -- inversion E2; subst. exact (L p1 p2 eq_refl N S).
Qed.

(** A size text starts with a digit, so none starts among characters that
    are not digits. *)
Lemma junk_leftmost (pre s : string) :
  allChars notDigit pre = true -> Leftmost pre s.
Proof.
  intros H p1 p2 E N [w [rest [Ew Hw]]]. subst pre.
  rewrite allChars_append in H. apply andb_true_iff in H. destruct H as [_ H].
  destruct p2 as [|c p2]; [congruence|].
  cbn in H. apply andb_true_iff in H. destruct H as [Hc _].
  destruct Hw as [num ws tok Hnum _ _].
  destruct Hnum as [ip Hne Hip|ip fp Hne Hip _ _];
    (destruct ip as [|d ip]; [congruence|]);
    cbn in Hip; apply andb_true_iff in Hip; destruct Hip as [Hd _];
    cbn in Ew; inversion Ew; subst;
    unfold notDigit in Hc; rewrite Hd in Hc; discriminate.
Qed.

(** C4, as amended.  [parsePackageSize] returns [null] exactly on the
    strings no part of which is a number, optional white space and a unit
    token; so the empty string, "abc" and every string without a digit
    give [null].  Every other string is parsed from its leftmost such
    part: when the string is [pre], a number [num], white space [ws], a
    unit token [tok] and [post], and no such part starts inside [pre],
    the result is the size of [num] and [tok] (the Number [num] parses
    to, times 1000 for kg and l, in "g", "ml" or "item"), which is the
    result on [num ++ ws ++ tok] alone; and every string that has such a
    part has a leftmost one. *)
Theorem parsePackageSize_failure :
  forall s : string,
    (parsePackageSize s = Normal None <-> ~ ContainsSizeText s) /\
    (forall pre num ws tok post,
        s = pre ++ num ++ ws ++ tok ++ post ->
        DecimalText num ->
        allChars isWhiteSpace ws = true ->
        UnitToken tok ->
        Leftmost pre (num ++ ws ++ tok ++ post) ->
        parsePackageSize s = Normal (Some (sizeOf num tok)) /\
        parsePackageSize s = parsePackageSize (num ++ ws ++ tok)) /\
    (ContainsSizeText s ->
       exists pre num ws tok post,
         s = pre ++ num ++ ws ++ tok ++ post /\
         DecimalText num /\
         allChars isWhiteSpace ws = true /\
         UnitToken tok /\
         Leftmost pre (num ++ ws ++ tok ++ post)) /\
    (allChars notDigit s = true -> parsePackageSize s = Normal None) /\
    parsePackageSize "" = Normal None /\
    parsePackageSize "abc" = Normal None.
Proof.
  intros s.
  assert (Iff : parsePackageSize s = Normal None <-> ~ ContainsSizeText s).
  { rewrite parsePackageSize_none. unfold String_match. split.
    - intros H [pre [w [post [E Hw]]]].
      destruct (SizeText_matchAt w post Hw) as [num [tok M]].
      rewrite (exec_none _ _ _ H pre (w ++ post) E) in M. discriminate.
    - intros N. destruct (exec true sizePattern s) as [caps|] eqn:X; [|reflexivity].
      exfalso. apply N. apply exec_some in X.
      destruct X as [pre [suf [y [E [M _]]]]].
      apply matchAt_inv in M. destruct M as [w [num [tok [Es [Hw _]]]]].
      exists pre, w, (rest y). split; [congruence|assumption]. }
  split; [exact Iff|]. split; [|split; [|split; [|split; reflexivity]]].
  - intros pre num ws tok post E Hnum Hws Htok L.
    assert (A : parsePackageSize s = Normal (Some (sizeOf num tok))).
    { subst s. unfold parsePackageSize, String_match.
      rewrite (exec_leftmost _ _ L).
      rewrite (exec_hit _ _ _ _ (matchAt_size num ws tok post Hnum Hws Htok)).
      reflexivity. }
    split; [exact A|]. rewrite A. unfold parsePackageSize.
    now rewrite (match_size num ws tok Hnum Hws Htok).
  - intros C. destruct (exec true sizePattern s) as [caps|] eqn:X.
    + apply exec_first in X. destruct X as [pre [suf [y [E [M [_ L]]]]]].
      apply matchAt_parts in M.
      destruct M as [num [ws [tok [Es [Hnum [Hws [Htok _]]]]]]].
      exists pre, num, ws, tok, (rest y). subst suf. repeat split; assumption.
    + exfalso. revert C. apply Iff. now apply parsePackageSize_none.
  - intros H. apply Iff. intros C. apply contains_digit in C. congruence.
Qed.

Lemma parsePackageSize_failure_witness :
  parsePackageSize "two cups" = Normal None /\
  parsePackageSize "about 12g or 5 kg" = Normal (Some (mkParsedSize 12%float "g")).
Proof.
  split.
  - exact (proj1 (proj2 (proj2 (proj2 (parsePackageSize_failure "two cups")))) eq_refl).
  - refine (eq_trans
      (proj1 (proj1 (proj2 (parsePackageSize_failure "about 12g or 5 kg"))
                "about " "12" "" "g" " or 5 kg" eq_refl
                (DecimalInteger "12" _ eq_refl) eq_refl _
                (junk_leftmost "about " _ eq_refl))) _).
    + discriminate.
    + unfold UnitToken, unitTokens. cbn. tauto.
    + vm_compute. reflexivity.
Defined.

(** C4 as stated fails: "5 lbs" is not a number, white space and a unit
    token, and neither is "454grams", yet both are parsed. *)
Lemma parsePackageSize_accepts_extra_characters :
  (~ SizeText "5 lbs" /\
   parsePackageSize "5 lbs" = Normal (Some (mkParsedSize 5000%float "ml"))) /\
  (~ SizeText "454grams" /\
   parsePackageSize "454grams" = Normal (Some (mkParsedSize 454%float "g"))).
Proof.
  split; (split; [|vm_compute; reflexivity]); intros H;
    destruct (SizeText_matchAt _ "" H) as [num [tok M]];
    vm_compute in M; discriminate M.
Qed.

(** ** Properties of [parseFloat] *)

(** *** Rounding never gives NaN *)

Lemma is_nan_Prim2SF (f : float) : Prim2SF f <> S754_nan -> PrimFloat.is_nan f = false.
Proof.
  unfold Prim2SF. destruct (PrimFloat.is_nan f); [congruence|reflexivity].
Qed.

Lemma shr_1_nonneg (mrs : shr_record) : (0 <= shr_m mrs -> 0 <= shr_m (shr_1 mrs))%Z.
Proof.
  destruct mrs as [m r s]. destruct m as [|[p|p|]|[p|p|]]; cbn; lia.
Qed.

Lemma iter_shr_1_nonneg (p : positive) :
  forall mrs, (0 <= shr_m mrs -> 0 <= shr_m (iter_pos shr_1 p mrs))%Z.
Proof.
  induction p as [p IH|p IH|]; intros mrs H; cbn.
  - apply IH, IH. now apply shr_1_nonneg.
  - auto.
  - now apply shr_1_nonneg.
Qed.

Lemma shr_fexp_nonneg (m e : Z) (l : location) :
  (0 <= m -> 0 <= shr_m (fst (shr_fexp prec emax m e l)))%Z.
Proof.
  intros H. unfold shr_fexp, shr.
  assert (R : (0 <= shr_m (shr_record_of_loc m l))%Z)
    by (destruct l as [|[| |]]; exact H).
  destruct (fexp prec emax (Zdigits2 m + e) - e)%Z; cbn [fst]; auto.
  now apply iter_shr_1_nonneg.
Qed.

Lemma round_nearest_even_nonneg (m : Z) (l : location) :
  (0 <= m -> 0 <= round_nearest_even m l)%Z.
Proof.
  intros H. destruct l as [|[| |]]; cbn; try lia.
  destruct (Z.even m); lia.
Qed.

Lemma binary_round_aux_number (sx : bool) (mx ex : Z) (lx : location) :
  (0 <= mx)%Z -> binary_round_aux prec emax sx mx ex lx <> S754_nan.
Proof.
  intros H. unfold binary_round_aux.
  pose proof (shr_fexp_nonneg mx ex lx H) as H1.
  destruct (shr_fexp prec emax mx ex lx) as [mrs' e']. cbn [fst] in H1.
  pose proof (shr_fexp_nonneg
                (round_nearest_even (shr_m mrs') (loc_of_shr_record mrs')) e' loc_Exact
                (round_nearest_even_nonneg _ _ H1)) as H2.
  destruct (shr_fexp prec emax _ e' loc_Exact) as [mrs'' e'']. cbn [fst] in H2.
  destruct (shr_m mrs'') as [|p|p]; try discriminate; [|lia].
  destruct (e'' <=? emax - prec)%Z; discriminate.
Qed.

Lemma binary_round_number (sx : bool) (mx : positive) (ex : Z) :
  binary_round prec emax sx mx ex <> S754_nan.
Proof.
  unfold binary_round. destruct (shl_align mx ex _) as [mz ez].
  apply binary_round_aux_number. lia.
Qed.

Lemma SF2Prim_number (sf : spec_float) :
  sf <> S754_nan -> PrimFloat.is_nan (SF2Prim sf) = false.
Proof.
  destruct sf as [[|]|[|]| |s m e]; intros H; try reflexivity; [congruence|].
  assert (F : forall f k, Prim2SF f <> S754_nan -> Prim2SF (Z.ldexp f k) <> S754_nan).
  { intros f k Hf. unfold Z.ldexp. rewrite ldshiftexp_spec.
    destruct (Prim2SF f); cbn; try congruence. apply binary_round_number. }
  assert (N : Prim2SF (of_uint63 (Uint63Axioms.of_Z (Zpos m))) <> S754_nan).
  { rewrite of_uint63_spec. unfold binary_normalize.
    destruct (Uint63Axioms.to_Z _); try discriminate; apply binary_round_number. }
  apply is_nan_Prim2SF. cbn [SF2Prim]. destruct s.
  - rewrite opp_spec. specialize (F _ e N).
    destruct (Prim2SF (Z.ldexp _ e)); cbn; congruence.
  - now apply F.
Qed.

Lemma ofDecimal_number (neg : bool) (m e : Z) : isNaN (ofDecimal neg m e) = false.
Proof.
  unfold ofDecimal, isNaN. destruct (m <=? 0)%Z eqn:Hm.
  - destruct neg; reflexivity.
  - apply Z.leb_gt in Hm. cbv zeta. apply SF2Prim_number, binary_round_aux_number.
    apply Z.div_pos.
    + destruct (0 <=? e)%Z eqn:He.
      * apply Z.leb_le in He. apply Z.mul_nonneg_nonneg; [|apply Z.pow_nonneg; lia].
        apply Z.mul_nonneg_nonneg; [lia|apply Z.pow_nonneg; lia].
      * apply Z.mul_nonneg_nonneg; [lia|apply Z.pow_nonneg; lia].
    + destruct (0 <=? e)%Z eqn:He; [lia|].
      apply Z.leb_gt in He. apply Z.pow_pos_nonneg; lia.
Qed.

Lemma literalValue_number (neg : bool) (l : Literal) :
  isNaN (literalValue neg (Some l)) = false.
Proof.
  destruct l as [|m e]; cbn [literalValue].
  - destruct neg; reflexivity.
  - apply ofDecimal_number.
Qed.

(** *** A number followed by characters that are not digits *)

Lemma span_run (p : ascii -> bool) (run tl : string) :
  allChars p run = true -> stopsAt p tl -> span p (run ++ tl) = (run, tl).
Proof.
  intros Hall Hstop. induction run as [|ch run IH]; cbn in *.
  - destruct tl as [|ch tl]; cbn in *; [reflexivity|now rewrite Hstop].
  - apply andb_true_iff in Hall. destruct Hall as [Hch Hall].
    now rewrite Hch, (IH Hall).
Qed.

Lemma junk_stops (junk : string) : allChars notDigit junk = true -> stopsAt isDigit junk.
Proof.
  destruct junk as [|ch tl]; cbn; [auto|]. unfold notDigit. intros H.
  apply andb_true_iff in H. destruct H as [H _]. now apply negb_true_iff.
Qed.

Lemma span_junk (junk : string) :
  allChars notDigit junk = true -> span isDigit junk = ("", junk).
Proof.
  intros H. apply (span_run isDigit "" junk); [reflexivity|now apply junk_stops].
Qed.

Lemma junk_tail (ch : ascii) (tl : string) :
  allChars notDigit (String ch tl) = true -> allChars notDigit tl = true.
Proof. cbn. intros H. now apply andb_true_iff in H. Qed.

Lemma scanExponent_junk (junk : string) :
  allChars notDigit junk = true -> scanExponent junk = 0%Z.
Proof.
  intros H. destruct junk as [|ch tl]; [reflexivity|]. cbn [scanExponent].
  destruct (Ascii.eqb ch "e" || Ascii.eqb ch "E")%bool; [|reflexivity].
  apply junk_tail in H.
  assert (S : forall neg rest', scanSign tl = (neg, rest') -> allChars notDigit rest' = true).
  { unfold scanSign. destruct tl as [|c r]; [intros ? ? E; now inversion E|].
    destruct (Ascii.eqb c "+"); [|destruct (Ascii.eqb c "-")];
      intros ? ? E; inversion E; subst; auto; now apply junk_tail in H. }
  destruct (scanSign tl) as [neg rest']. rewrite (span_junk rest' (S _ _ eq_refl)).
  reflexivity.
Qed.

Lemma digit_not_infinity (ch : ascii) (tl : string) :
  isDigit ch = true -> String.prefix "Infinity" (String ch tl) = false.
Proof.
  intros H. cbn [String.prefix].
  destruct (ascii_dec "I" ch) as [<-|_]; [discriminate H|reflexivity].
Qed.

Lemma digit_plain (ch : ascii) :
  isDigit ch = true ->
  isWhiteSpace ch = false /\ Ascii.eqb ch "+" = false /\ Ascii.eqb ch "-" = false.
Proof.
  destruct ch as [[|] [|] [|] [|] [|] [|] [|] [|]];
    intros H; try discriminate H; repeat split; reflexivity.
Qed.

Lemma junk_point (ch : ascii) (tl : string) :
  allChars notDigit (String ch tl) = true ->
  Ascii.eqb ch "." = true ->
  span isDigit tl = ("", tl) /\ scanExponent tl = 0%Z.
Proof.
  intros H _. apply junk_tail in H. split; [now apply span_junk|now apply scanExponent_junk].
Qed.

(** The literal scanned after a run of digits. *)
Lemma scanUnsigned_digits (ip tl : string) :
  ip <> "" ->
  allChars isDigit ip = true ->
  stopsAt isDigit tl ->
  scanUnsigned (ip ++ tl) =
  match tl with
  | String c r2 =>
      if Ascii.eqb c "." then
        let (fp, r3) := span isDigit r2 in
        Some (LitDecimal (digitsValue 0 (ip ++ fp))
                         (scanExponent r3 - Z.of_nat (String.length fp)))
      else Some (LitDecimal (digitsValue 0 ip) (scanExponent tl))
  | EmptyString => Some (LitDecimal (digitsValue 0 ip) 0)
  end.
Proof.
  intros Hne Hip Hstop. unfold scanUnsigned.
  assert (I : String.prefix "Infinity" (ip ++ tl) = false).
  { destruct ip as [|ch ip]; [congruence|]. cbn in Hip.
    apply andb_true_iff in Hip. now apply digit_not_infinity. }
  rewrite I, (span_run isDigit ip tl Hip Hstop).
  assert (E : isEmpty ip = false) by (destruct ip; [congruence|reflexivity]).
  rewrite E. cbn [andb].
  destruct tl as [|c r2]; [reflexivity|].
  destruct (Ascii.eqb c "."); [|reflexivity].
  destruct (span isDigit r2); reflexivity.
Qed.

(** The literal scanned in a number followed by non-digits is the literal
    scanned in the number alone. *)
Lemma scanUnsigned_prefix (num junk : string) :
  DecimalText num ->
  allChars notDigit junk = true ->
  scanUnsigned (num ++ junk) = scanUnsigned num /\ scanUnsigned num <> None.
Proof.
  intros [ip Hne Hip|ip fp Hne Hip Hnf Hfp] Hjunk.
  - assert (E0 : scanUnsigned ip = Some (LitDecimal (digitsValue 0 ip) 0)).
    { rewrite <- (append_nil_r ip) at 1. exact (scanUnsigned_digits ip "" Hne Hip I). }
    rewrite E0, (scanUnsigned_digits ip junk Hne Hip (junk_stops junk Hjunk)).
    split; [|discriminate].
    destruct junk as [|ch tl]; [reflexivity|].
    rewrite (scanExponent_junk _ Hjunk).
    destruct (Ascii.eqb ch ".") eqn:P; [|reflexivity].
    destruct (junk_point ch tl Hjunk P) as [S X]. rewrite S, X.
    cbn [String.length]. now rewrite append_nil_r.
  - pose proof (span_run isDigit fp "" Hfp I) as S0. rewrite append_nil_r in S0.
    rewrite append_assoc. cbn [append].
    rewrite (scanUnsigned_digits ip (String "." (fp ++ junk)) Hne Hip eq_refl).
    rewrite (scanUnsigned_digits ip (String "." fp) Hne Hip eq_refl).
    cbn [Ascii.eqb Bool.eqb].
    rewrite (span_run isDigit fp junk Hfp (junk_stops junk Hjunk)), S0.
    rewrite (scanExponent_junk _ Hjunk). split; [reflexivity|discriminate].
Qed.

Lemma parseFloat_digit (ch : ascii) (tl : string) :
  isDigit ch = true ->
  parseFloat (String ch tl) = literalValue false (scanUnsigned (String ch tl)).
Proof.
  intros H. destruct (digit_plain ch H) as [W [P M]].
  unfold parseFloat. cbn [dropWhile]. rewrite W. cbn [scanSign]. now rewrite P, M.
Qed.

Lemma decimal_head (num : string) :
  DecimalText num -> exists ch tl, num = String ch tl /\ isDigit ch = true.
Proof.
  intros [ip Hne Hip|ip fp Hne Hip _ _];
    (destruct ip as [|ch ip]; [congruence|]);
    cbn in Hip; apply andb_true_iff in Hip; destruct Hip as [Hch _];
    eexists; eexists; split; try eassumption; reflexivity.
Qed.

(** [parseFloat] reads a number and ignores the non-digits after it. *)
Lemma parseFloat_prefix (num junk : string) :
  DecimalText num ->
  allChars notDigit junk = true ->
  parseFloat (num ++ junk) = parseFloat num /\ isNaN (parseFloat (num ++ junk)) = false.
Proof.
  intros Hnum Hjunk.
  destruct (decimal_head num Hnum) as [ch [tl [E Hch]]].
  destruct (scanUnsigned_prefix num junk Hnum Hjunk) as [S N].
  assert (A : parseFloat (num ++ junk) = literalValue false (scanUnsigned (num ++ junk))).
  { subst num. now apply parseFloat_digit. }
  assert (B : parseFloat num = literalValue false (scanUnsigned num)).
  { subst num. now apply parseFloat_digit. }
  rewrite A, B, S. split; [reflexivity|].
  destruct (scanUnsigned num) as [l|]; [apply literalValue_number|congruence].
Qed.

(** [parseFloat] gives NaN exactly on the strings with no numeric prefix. *)
Lemma scanUnsigned_starts (t : string) :
  match scanUnsigned t with Some _ => true | None => false end = startsNumber t.
Proof.
  unfold scanUnsigned, startsNumber.
  destruct (String.prefix "Infinity" t); [reflexivity|]. cbn [orb].
  destruct t as [|ch tl]; [reflexivity|]. cbn [span].
  destruct (isDigit ch) eqn:D.
  - destruct (span isDigit tl) as [run r1]. cbn [isEmpty andb orb].
    destruct r1 as [|c r2]; [reflexivity|].
    destruct (Ascii.eqb c "."); [|reflexivity].
    destruct (span isDigit r2); reflexivity.
  - cbn [isEmpty andb orb]. destruct (Ascii.eqb ch "."); [|reflexivity].
    destruct tl as [|d tl']; [reflexivity|]. cbn [span].
    destruct (isDigit d); [|reflexivity].
    destruct (span isDigit tl'); reflexivity.
Qed.

Lemma parseFloat_nan (s : string) : isNaN (parseFloat s) = negb (hasNumericPrefix s).
Proof.
  unfold parseFloat, hasNumericPrefix.
  destruct (scanSign (dropWhile isWhiteSpace s)) as [neg t]. cbn [snd].
  rewrite <- scanUnsigned_starts.
  destruct (scanUnsigned t) as [l|]; [apply literalValue_number|reflexivity].
Qed.

(** C10.  An input that starts with a decimal number and goes on with
    characters that are not digits, such as "500abc", is not rejected as
    not a number: [parseFloat] gives the value of the number, and
    [saveEdit] ends as it does on the number alone, for the size input
    and for the price input alike.  [parseFloat] gives NaN exactly on the
    inputs that, after leading white space and an optional sign, do not
    start with a number. *)
Theorem saveEdit_parses_leading_number :
  forall (index : nat) (st : State) (num junk : string),
    DecimalText num ->
    allChars notDigit junk = true ->
    isNaN (parseFloat (num ++ junk)) = false /\
    parseFloat (num ++ junk) = parseFloat num /\
    SameOutcome index (withInputs st (num ++ junk) (editPackagePrice st))
                      (withInputs st num (editPackagePrice st)) /\
    SameOutcome index (withInputs st (editPackageSize st) (num ++ junk))
                      (withInputs st (editPackageSize st) num) /\
    (forall s : string, isNaN (parseFloat s) = negb (hasNumericPrefix s)).
Proof.
  intros index st num junk Hnum Hjunk.
  destruct (parseFloat_prefix num junk Hnum Hjunk) as [P N].
  split; [exact N|]. split; [exact P|].
  split; [|split].
  - apply saveEdit_reads_parsed; [reflexivity|exact P|reflexivity].
  - apply saveEdit_reads_parsed; [reflexivity|reflexivity|exact P].
  - apply parseFloat_nan.
Qed.

Lemma saveEdit_parses_leading_number_witness :
  isNaN (parseFloat "500abc") = false /\
  result (pending (snd (run (saveEdit 0) (editing cookies 0 "500abc" "4.00")))) =
    Some cookiesEdited.
Proof.
  destruct (saveEdit_parses_leading_number 0 (editing cookies 0 "" "4.00") "500" "abc"
              (DecimalInteger "500" ltac:(discriminate) eq_refl) eq_refl)
    as [N [_ [[_ [_ R]] _]]].
  split; [exact N|].
  etransitivity; [exact R|]. vm_compute. reflexivity.
Defined.


(** ** Further properties of the handlers *)

(** *** Successive edits *)

Lemma Saves_editedLine (index : nat) (st : State) (res' : Result) :
  Saves index st res' ->
  exists res ing,
    result st = Some res /\
    nth_error (ingredients res) index = Some ing /\
    inputsPass (editPackageSize st) (editPackagePrice st) = true /\
    let lines :=
      assign (ingredients res) index
        (editedLine ing (editPackageSize st) (editPackagePrice st)) in
    res' = mkResult (recipe_name res) lines (sumCosts lines) (yield_count res)
                    (sumCosts lines / yield_count res)%float.
Proof.
  unfold Saves, inputsPass. intros E.
  destruct (saveEdit_run index st) as [Hs|Hs Hp|Hs Hp Hn|res ing Hs Hp Hres Hing s p line lines];
    try discriminate E.
  exists res, ing. rewrite Hs, Hp. repeat split; auto.
  inversion E. reflexivity.
Qed.

Lemma editedLine_Saves (index : nat) (st : State) (res : Result) (ing : Ingredient) :
  result st = Some res ->
  nth_error (ingredients res) index = Some ing ->
  inputsPass (editPackageSize st) (editPackagePrice st) = true ->
  let lines :=
    assign (ingredients res) index
      (editedLine ing (editPackageSize st) (editPackagePrice st)) in
  Saves index st
    (mkResult (recipe_name res) lines (sumCosts lines) (yield_count res)
              (sumCosts lines / yield_count res)%float).
Proof.
  intros Hres Hing H. unfold inputsPass in H.
  apply andb_true_iff in H. destruct H as [Hs Hp].
  apply negb_true_iff in Hs. apply negb_true_iff in Hp.
  unfold Saves, run, saveEdit. rewrite Hs, Hp, Hres. cbn.
  unfold bind, defined. rewrite Hing. reflexivity.
Qed.

Lemma assign_assign_same {A : Type} (l : list A) (i : nat) (a b : A) :
  assign (assign l i a) i b = assign l i b.
Proof.
  revert i; induction l as [|h tl IH]; intros [|i]; cbn; auto. now rewrite IH.
Qed.

Lemma assign_assign_other {A : Type} (l : list A) (i j : nat) (a b : A) :
  i <> j -> assign (assign l i a) j b = assign (assign l j b) i a.
Proof.
  revert i j; induction l as [|h tl IH]; intros [|i] [|j] Hij; cbn; auto.
  - contradiction.
  - rewrite IH; auto.
Qed.

Lemma editedLine_again (ing : Ingredient) (s1 p1 s2 p2 : string) :
  editedLine (editedLine ing s1 p1) s2 p2 = editedLine ing s2 p2.
Proof. reflexivity. Qed.

(** X1.  Of two successive edits of the same line only the last counts:
    when an edit is saved and a second edit of the same line is saved on
    the result of the first, the second edit alone, made on the first
    state, saves the same result.  The same edit saved twice is the edit
    saved once. *)
Theorem saveEdit_last_edit_wins :
  forall (index : nat) (st st1 : State) (res1 res2 : Result),
    Saves index st res1 ->
    result st1 = Some res1 ->
    Saves index st1 res2 ->
    Saves index (withInputs st (editPackageSize st1) (editPackagePrice st1)) res2.
Proof.
  intros index st st1 res1 res2 H1 Hr H2.
  destruct (Saves_editedLine _ _ _ H1) as [res [ing [Hres [Hing [_ E1]]]]].
  destruct (Saves_editedLine _ _ _ H2) as [res1' [ing1 [Hres1 [Hing1 [P2 E2]]]]].
  cbv zeta in E1, E2. rewrite Hr in Hres1. inversion Hres1; subst res1'; clear Hres1.
  subst res1. cbn [ingredients recipe_name yield_count] in *.
  rewrite (nth_error_assign_eq _ _ _ _ Hing) in Hing1. inversion Hing1; subst ing1.
  rewrite editedLine_again, assign_assign_same in E2. subst res2.
  apply (editedLine_Saves index
           (withInputs st (editPackageSize st1) (editPackagePrice st1)) res ing);
    assumption.
Qed.

Lemma saveEdit_last_edit_wins_witness :
  Saves 0 (editing cookies 0 "500" "4.00") cookiesEdited /\
  Saves 0 (editing cookies 0 "1000" "7.5")
    (mkResult (Some "Cookies")
       [mkIngredient "oats" 60%float "g" (7.5 / 1000 * 60)%float None true
          (Some (mkPackageInfo "1000g" 7.5%float (7.5 / 1000)%float "g"));
        peanutButter]
       (7.5 / 1000 * 60 + 0.22)%float 6%float ((7.5 / 1000 * 60 + 0.22) / 6)%float).
Proof.
  split; [exact saves_cookies|].
  refine (saveEdit_last_edit_wins 0 (editing cookies 0 "500" "4.00")
            (editing cookiesEdited 0 "1000" "7.5") cookiesEdited _
            saves_cookies eq_refl _).
  vm_compute. reflexivity.
Defined.

(** X2.  Edits of two different lines commute: when an edit of line [i]
    and then an edit of line [j] are saved, the edit of [j] and then the
    edit of [i] are saved too, and they leave the same result. *)
Theorem saveEdit_edits_commute :
  forall (i j : nat) (st : State) (res0 r1 r12 : Result) (si pri sj pj : string),
    i <> j ->
    Saves i (holding st res0 si pri) r1 ->
    Saves j (holding st r1 sj pj) r12 ->
    exists r2,
      Saves j (holding st res0 sj pj) r2 /\
      Saves i (holding st r2 si pri) r12.
Proof.
  intros i j st res0 r1 r12 si pri sj pj Hij H1 H2.
  destruct (Saves_editedLine _ _ _ H1) as [res [a [Hres [Ha [P1 E1]]]]].
  destruct (Saves_editedLine _ _ _ H2) as [res' [b [Hres' [Hb [P2 E2]]]]].
  cbv zeta in E1, E2. cbn [holding result editPackageSize editPackagePrice] in *.
  inversion Hres; subst res; clear Hres.
  inversion Hres'; subst res'; clear Hres'.
  subst r1. cbn [ingredients recipe_name yield_count] in *.
  rewrite nth_error_assign_ne in Hb by assumption.
  eexists. split.
  - apply (editedLine_Saves j (holding st res0 sj pj) res0 b); auto.
  - pose proof (editedLine_Saves i
                  (holding st
                     (mkResult (recipe_name res0)
                        (assign (ingredients res0) j (editedLine b sj pj))
                        (sumCosts (assign (ingredients res0) j (editedLine b sj pj)))
                        (yield_count res0)
                        (sumCosts (assign (ingredients res0) j (editedLine b sj pj))
                           / yield_count res0)%float) si pri) _ a eq_refl) as S.
    cbn [ingredients recipe_name yield_count holding editPackageSize editPackagePrice] in S.
    rewrite nth_error_assign_ne in S by auto.
    specialize (S Ha P1).
    rewrite <- (assign_assign_other (ingredients res0) i j) in S by assumption.
    subst r12. exact S.
Qed.

Lemma saveEdit_edits_commute_witness :
  exists r2,
    Saves 1 (holding (editing cookies 0 "" "") cookies "250" "2.20") r2 /\
    Saves 0 (holding (editing cookies 0 "" "") r2 "500" "4.00")
      (mkResult (Some "Cookies")
         [mkIngredient "oats" 60%float "g" 0.48%float None true
            (Some (mkPackageInfo "500g" 4%float 0.008%float "g"));
          mkIngredient "peanut butter" 30%float "g" (2.2 / 250 * 30)%float
            (Some "smooth") true
            (Some (mkPackageInfo "250g" 2.2%float (2.2 / 250)%float "g"))]
         (0.48 + 2.2 / 250 * 30)%float 6%float
         ((0.48 + 2.2 / 250 * 30) / 6)%float).
Proof.
  refine (saveEdit_edits_commute 0 1 (editing cookies 0 "" "") cookies cookiesEdited _
            "500" "4.00" "250" "2.20" _ _ _).
  - discriminate.
  - vm_compute. reflexivity.
  - vm_compute. reflexivity.
Defined.

(** *** Bounds and marks *)

Lemma inputsPass_false (rawSize rawPrice : string) :
  inputsPass rawSize rawPrice = false ->
  (isNaN (parseFloat rawSize) || (parseFloat rawSize <=? 0)%float)%bool = true \/
  (isNaN (parseFloat rawPrice) || (parseFloat rawPrice <? 0)%float)%bool = true.
Proof.
  unfold inputsPass. intros H. apply andb_false_iff in H.
  destruct H as [H|H]; apply negb_false_iff in H; auto.
Qed.

(** X3.  The inputs are checked before the line is looked up.  When the
    state has no result, or no line at the index, [saveEdit] leaves the
    state as it is; with inputs that pass the checks it throws a TypeError
    and shows no alert, and with other inputs it fails with a validation
    message as usual. *)
Theorem saveEdit_validates_before_lookup :
  forall (index : nat) (st : State),
    (forall res, result st = Some res -> nth_error (ingredients res) index = None) ->
    pending (snd (run (saveEdit index) st)) = st /\
    (inputsPass (editPackageSize st) (editPackagePrice st) = true ->
       run (saveEdit index) st = (TypeError, mkEffects st [])) /\
    (inputsPass (editPackageSize st) (editPackagePrice st) = false ->
       Fails index st invalidPackageSize \/ Fails index st invalidPackagePrice).
Proof.
  intros index st Hno. unfold Fails, inputsPass.
  destruct (saveEdit_run index st) as [Hs|Hs Hp|Hs Hp Hn|res ing Hs Hp Hres Hing];
    cbn [snd pending alerts].
  - rewrite Hs. cbn. repeat split; auto; discriminate.
  - rewrite Hs, Hp. cbn. repeat split; auto; discriminate.
  - rewrite Hs, Hp. cbn. repeat split; auto; discriminate.
  - rewrite (Hno res Hres) in Hing. discriminate.
Qed.

Lemma saveEdit_validates_before_lookup_witness :
  run (saveEdit 7) (editing cookies 7 "500" "4.00")
    = (TypeError, mkEffects (editing cookies 7 "500" "4.00") []) /\
  (Fails 7 (editing cookies 7 "0" "4.00") invalidPackageSize \/
   Fails 7 (editing cookies 7 "0" "4.00") invalidPackagePrice).
Proof.
  split.
  - apply (saveEdit_validates_before_lookup 7 (editing cookies 7 "500" "4.00")).
    + intros res E. inversion E. reflexivity.
    + reflexivity.
  - apply (saveEdit_validates_before_lookup 7 (editing cookies 7 "0" "4.00")).
    + intros res E. inversion E. reflexivity.
    + reflexivity.
Defined.

(** X4.  A successful [saveEdit] never takes a mark away: a line that
    was manually adjusted stays so, a line that had package information
    keeps some, and the edited line has both afterwards, whether it had
    them or not. *)
Theorem saveEdit_never_unmarks :
  forall (index : nat) (st : State) (res res' : Result),
    result st = Some res ->
    Saves index st res' ->
    forall (j : nat) (old new : Ingredient),
      nth_error (ingredients res) j = Some old ->
      nth_error (ingredients res') j = Some new ->
      (manually_adjusted old = true -> manually_adjusted new = true) /\
      (package_info old <> None -> package_info new <> None) /\
      (j = index -> manually_adjusted new = true /\ package_info new <> None).
Proof.
  intros index st res res' Hres H j old new Hold Hnew.
  destruct (Saves_editedLine _ _ _ H) as [res0 [ing [Hres0 [Hing [_ E]]]]].
  cbv zeta in E. rewrite Hres in Hres0. inversion Hres0; subst res0; clear Hres0.
  subst res'. cbn [ingredients] in Hnew.
  destruct (Nat.eq_dec index j) as [->|Hne].
  - rewrite (nth_error_assign_eq _ _ _ _ Hing) in Hnew. inversion Hnew; subst new.
    cbn. repeat split; auto; discriminate.
  - rewrite nth_error_assign_ne in Hnew by assumption.
    rewrite Hold in Hnew. inversion Hnew; subst new.
    repeat split; auto; intros ->; now contradiction Hne.
Qed.

Lemma saveEdit_never_unmarks_witness :
  exists new,
    nth_error
      (ingredients (match result (next (saveEdit 1) (editing cookiesEdited 1 "250" "2.20"))
                    with Some r => r | None => cookies end)) 1 = Some new /\
    manually_adjusted new = true /\ package_info new <> None.
Proof.
  eexists. split; [vm_compute; reflexivity|].
  exact (proj2 (proj2 (saveEdit_never_unmarks 1 (editing cookiesEdited 1 "250" "2.20")
                  cookiesEdited _ eq_refl eq_refl 1%nat peanutButter _ eq_refl eq_refl))
           eq_refl).
Defined.

(** *** The edit form *)

Lemma detailsShown_inv (st : State) (idx : nat) :
  detailsShown st idx = true ->
  exists res ing pkg,
    result st = Some res /\
    nth_error (ingredients res) idx = Some ing /\
    package_info ing = Some pkg /\
    expandedIndex st = Some idx.
Proof.
  unfold detailsShown. intros H.
  destruct (result st) as [res|] eqn:Hres; [|discriminate].
  destruct (nth_error (ingredients res) idx) as [ing|] eqn:Hing; [|discriminate].
  destruct (expandedIndex st) as [i|] eqn:Hexp; [|discriminate].
  destruct (package_info ing) as [pkg|] eqn:Hpkg; [|discriminate].
  apply Nat.eqb_eq in H. subst i. exists res, ing, pkg. repeat split; assumption.
Qed.

Lemma detailsShown_intro (st : State) (idx : nat) (res : Result) (ing : Ingredient) :
  result st = Some res ->
  nth_error (ingredients res) idx = Some ing ->
  package_info ing <> None ->
  expandedIndex st = Some idx ->
  detailsShown st idx = true.
Proof.
  intros Hres Hing Hpkg Hexp. unfold detailsShown. rewrite Hres, Hing, Hexp.
  destruct (package_info ing); [apply Nat.eqb_refl|congruence].
Qed.

Lemma editingThis_inv (st : State) (idx : nat) :
  editingThis st idx = true -> editingIndex st = Some idx.
Proof.
  unfold editingThis. destruct (editingIndex st) as [i|]; [|discriminate].
  intros H. apply Nat.eqb_eq in H. now subst.
Qed.

(** X5.  [saveEdit] called from the Save button never throws: when the
    edit form of a line is on screen, the handler saves a result or fails
    with one of the two validation messages. *)
Theorem save_button_never_throws :
  forall (st : State) (idx : nat),
    editFormShown st idx = true ->
    (exists res', Saves idx st res') \/
    Fails idx st invalidPackageSize \/
    Fails idx st invalidPackagePrice.
Proof.
  intros st idx H. unfold editFormShown in H. apply andb_true_iff in H.
  destruct H as [H _]. apply detailsShown_inv in H.
  destruct H as [res [ing [pkg [Hres [Hing _]]]]].
  destruct (saveEdit_outcomes idx st) as [S|[F|[F|T]]]; auto.
  exfalso.
  destruct (saveEdit_run idx st) as [Hs|Hs Hp|Hs Hp Hn|res0 ing0 Hs Hp Hres0 Hing0];
    try discriminate T.
  rewrite (Hn res Hres) in Hing. discriminate.
Qed.

Lemma save_button_never_throws_witness :
  (exists res', Saves 0 (editing cookies 0 "abc" "4.00") res') \/
  Fails 0 (editing cookies 0 "abc" "4.00") invalidPackageSize \/
  Fails 0 (editing cookies 0 "abc" "4.00") invalidPackagePrice.
Proof.
  exact (save_button_never_throws (editing cookies 0 "abc" "4.00") 0 eq_refl).
Defined.

(** X6.  How the edit form closes.  After a successful save, and after
    Cancel, no line shows the edit form, and the row that showed it shows
    its pricing details with the Edit button.  After a save that fails
    with a validation message the form stays, with the inputs as typed. *)
Theorem edit_form_closes :
  forall (st : State) (idx : nat),
    editFormShown st idx = true ->
    (forall res', Saves idx st res' ->
       (forall j, editFormShown (next (saveEdit idx) st) j = false) /\
       editButtonShown (next (saveEdit idx) st) idx = true) /\
    ((forall j, editFormShown (next cancelEdit st) j = false) /\
     editButtonShown (next cancelEdit st) idx = true /\
     result (next cancelEdit st) = result st) /\
    (forall msg, Fails idx st msg ->
       editFormShown (next (saveEdit idx) st) idx = true /\
       editPackageSize (next (saveEdit idx) st) = editPackageSize st /\
       editPackagePrice (next (saveEdit idx) st) = editPackagePrice st).
Proof.
  intros st idx H. pose proof H as H0.
  unfold editFormShown in H. apply andb_true_iff in H. destruct H as [Hd He].
  destruct (detailsShown_inv st idx Hd) as [res [ing [pkg [Hres [Hing [Hpkg Hexp]]]]]].
  split; [|split].
  - intros res' S. pose proof S as S'. unfold Saves in S'.
    unfold next. rewrite S'. cbn [snd pending].
    split; [intros j; unfold editFormShown, editingThis; cbn; apply andb_false_r|].
    unfold editButtonShown, editingThis. cbn [editingIndex negb]. rewrite andb_true_r.
    destruct (Saves_editedLine _ _ _ S) as [res0 [ing0 [Hres0 [Hing0 [_ E]]]]].
    cbv zeta in E. subst res'.
    eapply detailsShown_intro; cbn [result ingredients expandedIndex];
      [reflexivity|eapply nth_error_assign_eq; eassumption|discriminate|assumption].
  - unfold next, run, cancelEdit. cbn.
    split; [intros j; unfold editFormShown, editingThis; cbn; apply andb_false_r|].
    split; [|reflexivity].
    unfold editButtonShown, editingThis. cbn [editingIndex negb]. rewrite andb_true_r.
    eapply detailsShown_intro; cbn [result expandedIndex]; try eassumption. congruence.
  - intros msg F. unfold Fails in F. unfold next.
    destruct (saveEdit_run idx st) as [Hs|Hs Hp|Hs Hp Hn|res0 ing0 Hs Hp Hres0 Hing0];
      cbn [snd pending alerts] in *; try discriminate F; auto.
Qed.

Lemma edit_form_closes_witness :
  editFormShown (next (saveEdit 0) (editing cookies 0 "500" "4.00")) 0 = false /\
  editButtonShown (next (saveEdit 0) (editing cookies 0 "500" "4.00")) 0 = true.
Proof.
  destruct (proj1 (edit_form_closes (editing cookies 0 "500" "4.00") 0 eq_refl)
              cookiesEdited saves_cookies) as [F B].
  split; [exact (F 0%nat)|exact B].
Defined.

(** *** Opening an edit *)

(** A match of the pattern, with the parts of the size text it found. *)
(** [parsePackageSize] returns [null] or a size; it never throws. *)
Lemma parsePackageSize_completes (s : string) :
  parsePackageSize s = Normal None \/
  exists num tok,
    DecimalText num /\ UnitToken tok /\
    parsePackageSize s = Normal (Some (sizeOf num tok)).
Proof.
  unfold parsePackageSize, String_match.
  destruct (exec true sizePattern s) as [caps|] eqn:X; [right|now left].
  apply exec_some in X. destruct X as [pre [suf [y [E [M ->]]]]].
  apply matchAt_parts in M. destruct M as [num [ws [tok [_ [Hnum [_ [Htok ->]]]]]]].
  exists num, tok. cbn [nth]. repeat split; auto.
Qed.

Lemma startEdit_with_package (index : nat) (st : State) (res : Result)
    (ing : Ingredient) (pkg : PackageInfo) :
  result st = Some res ->
  nth_error (ingredients res) index = Some ing ->
  package_info ing = Some pkg ->
  run (startEdit index) st =
    (Normal tt,
     mkEffects (mkState (recipe st) (yield_ st) (loading st) (result st) (error st)
                  (Some index) (sizeInputFor (size pkg))
                  (Number_toFixed (price pkg) 2) (expandedIndex st)) []).
Proof.
  intros Hres Hing Hpkg. unfold run, startEdit, sizeInputFor.
  destruct st as [rc yd ld rs er ei es ep ex]. cbn [result] in Hres. subst rs.
  cbn [result]. unfold bind at 1. cbn [defined].
  unfold bind at 1. rewrite Hing. cbn [defined]. rewrite Hpkg.
  destruct (parsePackageSize_completes (size pkg)) as [E|[num [tok [_ [_ E]]]]];
    rewrite E; reflexivity.
Qed.

Lemma startEdit_without_package (index : nat) (st : State) (res : Result)
    (ing : Ingredient) :
  result st = Some res ->
  nth_error (ingredients res) index = Some ing ->
  package_info ing = None ->
  run (startEdit index) st =
    (Normal tt,
     mkEffects (mkState (recipe st) (yield_ st) (loading st) (result st) (error st)
                  (Some index) (editPackageSize st) (editPackagePrice st)
                  (expandedIndex st)) []).
Proof.
  intros Hres Hing Hpkg. unfold run, startEdit.
  destruct st as [rc yd ld rs er ei es ep ex]. cbn [result] in Hres. subst rs.
  cbn [result]. unfold bind at 1. cbn [defined].
  unfold bind at 1. rewrite Hing. cbn [defined]. rewrite Hpkg. reflexivity.
Qed.

Lemma startEdit_without_line (index : nat) (st : State) :
  (forall res, result st = Some res -> nth_error (ingredients res) index = None) ->
  run (startEdit index) st = (TypeError, mkEffects st []).
Proof.
  intros Hno. unfold run, startEdit.
  destruct (result st) as [res|] eqn:Hres; [|reflexivity].
  unfold bind at 1. cbn [defined]. unfold bind at 1.
  rewrite (Hno res eq_refl). reflexivity.
Qed.

(** X7.  The Edit button opens the form: when a row shows its pricing
    details with the Edit button, [startEdit] on it returns without alert,
    keeps the result, and the next render shows the edit form of that row
    with the price input holding the package price in two decimals. *)
Theorem edit_button_opens_form :
  forall (st : State) (idx : nat),
    editButtonShown st idx = true ->
    fst (run (startEdit idx) st) = Normal tt /\
    alerts (snd (run (startEdit idx) st)) = [] /\
    result (next (startEdit idx) st) = result st /\
    editFormShown (next (startEdit idx) st) idx = true /\
    exists res ing pkg,
      result st = Some res /\
      nth_error (ingredients res) idx = Some ing /\
      package_info ing = Some pkg /\
      editPackagePrice (next (startEdit idx) st) = Number_toFixed (price pkg) 2 /\
      editPackageSize (next (startEdit idx) st) = sizeInputFor (size pkg).
Proof.
  intros st idx H. unfold editButtonShown in H. apply andb_true_iff in H.
  destruct H as [Hd _].
  destruct (detailsShown_inv st idx Hd) as [res [ing [pkg [Hres [Hing [Hpkg Hexp]]]]]].
  unfold next. rewrite (startEdit_with_package idx st res ing pkg Hres Hing Hpkg).
  cbn [fst snd alerts pending result editPackagePrice editPackageSize].
  repeat split; auto.
  - unfold editFormShown, editingThis. cbn [editingIndex]. rewrite Nat.eqb_refl, andb_true_r.
    eapply detailsShown_intro; cbn [result expandedIndex]; try eassumption. congruence.
  - exists res, ing, pkg. repeat split; auto.
Qed.

Lemma edit_button_opens_form_witness :
  editFormShown (next (startEdit 0)
      (mkState "" "6" false (Some cookies) "" None "" "" (Some 0%nat))) 0 = true.
Proof.
  exact (proj1 (proj2 (proj2 (proj2
    (edit_button_opens_form (mkState "" "6" false (Some cookies) "" None "" "" (Some 0%nat))
       0 eq_refl))))).
Defined.

(** X8.  [startEdit] never changes the result or shows an alert.  It
    throws a TypeError, leaving the state as it is, exactly when the state
    has no line at the index.  On a line without package information it
    marks the line as edited and leaves both inputs as they were. *)
Theorem startEdit_frame :
  forall (index : nat) (st : State),
    result (next (startEdit index) st) = result st /\
    expandedIndex (next (startEdit index) st) = expandedIndex st /\
    alerts (snd (run (startEdit index) st)) = [] /\
    (fst (run (startEdit index) st) = TypeError <->
       forall res, result st = Some res -> nth_error (ingredients res) index = None) /\
    (fst (run (startEdit index) st) = TypeError -> next (startEdit index) st = st) /\
    (forall res ing,
        result st = Some res ->
        nth_error (ingredients res) index = Some ing ->
        package_info ing = None ->
        editingIndex (next (startEdit index) st) = Some index /\
        editPackageSize (next (startEdit index) st) = editPackageSize st /\
        editPackagePrice (next (startEdit index) st) = editPackagePrice st).
Proof.
  intros index st. unfold next.
  destruct (result st) as [res|] eqn:Hres.
  - destruct (nth_error (ingredients res) index) as [ing|] eqn:Hing.
    + destruct (package_info ing) as [pkg|] eqn:Hpkg.
      * rewrite (startEdit_with_package index st res ing pkg Hres Hing Hpkg).
        cbn [fst snd alerts pending result expandedIndex]. rewrite Hres.
        split; [reflexivity|]. split; [reflexivity|]. split; [reflexivity|].
        split; [split; [discriminate|]|split; [discriminate|]].
        -- intros H. specialize (H res eq_refl). congruence.
        -- intros r i E N P. inversion E; subst. congruence.
      * rewrite (startEdit_without_package index st res ing Hres Hing Hpkg).
        cbn [fst snd alerts pending result expandedIndex editingIndex
             editPackageSize editPackagePrice]. rewrite Hres.
        split; [reflexivity|]. split; [reflexivity|]. split; [reflexivity|].
        split; [split; [discriminate|]|split; [discriminate|]].
        -- intros H. specialize (H res eq_refl). congruence.
        -- intros r i E N P. auto.
    + assert (Hno : forall r, result st = Some r -> nth_error (ingredients r) index = None).
      { intros r E. rewrite Hres in E. inversion E; subst. exact Hing. }
      rewrite (startEdit_without_line index st Hno).
      cbn [fst snd alerts pending]. rewrite Hres.
      split; [reflexivity|]. split; [reflexivity|]. split; [reflexivity|].
      split; [split; [intros _ r E; inversion E; subst; exact Hing|reflexivity]|].
      split; [reflexivity|].
      intros r i E N P. inversion E; subst. congruence.
  - assert (Hno : forall r, result st = Some r -> nth_error (ingredients r) index = None).
    { intros r E. rewrite Hres in E. discriminate. }
    rewrite (startEdit_without_line index st Hno).
    cbn [fst snd alerts pending]. rewrite Hres.
    split; [reflexivity|]. split; [reflexivity|]. split; [reflexivity|].
    split; [split; [intros _ r E; discriminate|reflexivity]|].
    split; [reflexivity|].
    intros r i E. discriminate.
Qed.

Lemma startEdit_frame_witness :
  editingIndex (next (startEdit 1) (editing cookies 0 "500" "4.00")) = Some 1%nat /\
  editPackageSize (next (startEdit 1) (editing cookies 0 "500" "4.00")) = "500" /\
  editPackagePrice (next (startEdit 1) (editing cookies 0 "500" "4.00")) = "4.00".
Proof.
  exact (proj2 (proj2 (proj2 (proj2 (proj2
    (startEdit_frame 1 (editing cookies 0 "500" "4.00"))))))
    cookies peanutButter eq_refl eq_refl eq_refl).
Defined.




(** X10.  Cancel discards everything Edit did: the state after
    [startEdit] and then [cancelEdit] is the state after [cancelEdit]
    alone, whether [startEdit] filled the inputs, left them, or threw. *)
Theorem cancelEdit_discards_startEdit :
  forall (index : nat) (st : State),
    next cancelEdit (next (startEdit index) st) = next cancelEdit st /\
    result (next cancelEdit (next (startEdit index) st)) = result st /\
    editingIndex (next cancelEdit (next (startEdit index) st)) = None.
Proof.
  intros index st.
  assert (E : next cancelEdit (next (startEdit index) st) = next cancelEdit st).
  { unfold next at 2.
    destruct (result st) as [res|] eqn:Hres.
    - destruct (nth_error (ingredients res) index) as [ing|] eqn:Hing.
      + destruct (package_info ing) as [pkg|] eqn:Hpkg.
        * rewrite (startEdit_with_package index st res ing pkg Hres Hing Hpkg).
          reflexivity.
        * rewrite (startEdit_without_package index st res ing Hres Hing Hpkg).
          reflexivity.
      + rewrite (startEdit_without_line index st); [reflexivity|].
        intros r Er. rewrite Hres in Er. inversion Er; subst. exact Hing.
    - rewrite (startEdit_without_line index st); [reflexivity|].
      intros r Er. rewrite Hres in Er. discriminate. }
  rewrite E. repeat split; reflexivity.
Qed.

(** *** Expanding a row *)



(** ** Further properties of [parsePackageSize] *)

(** *** The magnitude is a number and not below zero *)

Lemma to_Z_rec_nonneg (n : nat) :
  forall i, (0 <= Uint63Axioms.to_Z_rec n i)%Z.
Proof.
  induction n as [|n IH]; intros i; cbn [Uint63Axioms.to_Z_rec]; [lia|].
  match goal with
  | |- context [Uint63Axioms.to_Z_rec n ?j] => specialize (IH j)
  end.
  destruct (Uint63Axioms.is_even i);
    [rewrite Z.double_spec|rewrite Z.succ_double_spec]; lia.
Qed.

Lemma binary_round_aux_nonnegative (mx ex : Z) (lx : location) :
  (0 <= mx)%Z -> NonNegative (binary_round_aux prec emax false mx ex lx).
Proof.
  intros H. pose proof (binary_round_aux_number false mx ex lx H) as N.
  unfold binary_round_aux in *.
  destruct (shr_fexp prec emax mx ex lx) as [mrs' e'].
  destruct (shr_fexp prec emax _ e' loc_Exact) as [mrs'' e''].
  destruct (shr_m mrs'') as [|p|p]; [exact I| |now apply N].
  destruct (e'' <=? emax - prec)%Z; reflexivity.
Qed.

Lemma binary_round_nonnegative (mx : positive) (ex : Z) :
  NonNegative (binary_round prec emax false mx ex).
Proof.
  unfold binary_round. destruct (shl_align mx ex _) as [mz ez].
  apply binary_round_aux_nonnegative. lia.
Qed.

Lemma SF2Prim_nonnegative (sf : spec_float) :
  NonNegative sf -> NonNegative (Prim2SF (SF2Prim sf)).
Proof.
  destruct sf as [[|]|[|]| |[|] m e]; cbn [NonNegative]; intros H;
    try discriminate H; try contradiction; try exact I; try reflexivity.
  cbn [SF2Prim]. unfold Z.ldexp. rewrite ldshiftexp_spec, of_uint63_spec.
  unfold binary_normalize.
  pose proof (to_Z_rec_nonneg Uint63Axioms.size (Uint63Axioms.of_Z (Zpos m))) as B.
  fold (Uint63Axioms.to_Z (Uint63Axioms.of_Z (Zpos m))) in B.
  destruct (Uint63Axioms.to_Z (Uint63Axioms.of_Z (Zpos m))) as [|p|p]; [exact I| |lia].
  pose proof (binary_round_nonnegative p 0) as R.
  destruct (binary_round prec emax false p 0) as [s|s| |s m' e']; cbn in *; auto.
  subst s. apply binary_round_nonnegative.
Qed.

Lemma nonnegative_leb (x : Number) : NonNegative (Prim2SF x) -> (0 <=? x)%float = true.
Proof.
  rewrite leb_spec, Prim2SF_zero.
  destruct (Prim2SF x) as [[|]|[|]| |[|] m e]; cbn; intros H;
    try discriminate H; try contradiction; reflexivity.
Qed.

Lemma ofDecimal_nonnegative (m e : Z) : NonNegative (Prim2SF (ofDecimal false m e)).
Proof.
  unfold ofDecimal. destruct (m <=? 0)%Z eqn:Hm; [exact I|].
  apply Z.leb_gt in Hm. cbv zeta. apply SF2Prim_nonnegative, binary_round_aux_nonnegative.
  apply Z.div_pos.
  - destruct (0 <=? e)%Z eqn:He.
    + apply Z.leb_le in He. apply Z.mul_nonneg_nonneg; [|apply Z.pow_nonneg; lia].
      apply Z.mul_nonneg_nonneg; [lia|apply Z.pow_nonneg; lia].
    + apply Z.mul_nonneg_nonneg; [lia|apply Z.pow_nonneg; lia].
  - destruct (0 <=? e)%Z eqn:He; [lia|].
    apply Z.leb_gt in He. apply Z.pow_pos_nonneg; lia.
Qed.

Lemma scanUnsigned_decimal (num : string) :
  DecimalText num -> exists m e, scanUnsigned num = Some (LitDecimal m e).
Proof.
  intros [ip Hne Hip|ip fp Hne Hip Hnf Hfp].
  - rewrite <- (append_nil_r ip). rewrite (scanUnsigned_digits ip "" Hne Hip I). eauto.
  - rewrite (scanUnsigned_digits ip ("." ++ fp) Hne Hip eq_refl).
    cbn [append Ascii.eqb Bool.eqb]. destruct (span isDigit fp). eauto.
Qed.

Lemma parseFloat_decimal_nonnegative (num : string) :
  DecimalText num -> NonNegative (Prim2SF (parseFloat num)).
Proof.
  intros H. destruct (decimal_head num H) as [ch [tl [E Hch]]].
  destruct (scanUnsigned_decimal num H) as [m [e S]].
  rewrite E, parseFloat_digit by assumption. rewrite <- E, S.
  apply ofDecimal_nonnegative.
Qed.

Lemma times_1000_nonnegative (x : Number) :
  NonNegative (Prim2SF x) -> NonNegative (Prim2SF (x * 1000)%float).
Proof.
  rewrite mul_spec. unfold SF64mul.
  change (Prim2SF 1000) with (S754_finite false 8796093022208000 (-43)).
  destruct (Prim2SF x) as [[|]|[|]| |[|] m e]; cbn [NonNegative SFmul xorb]; intros H;
    try discriminate H; try contradiction; try exact I; try reflexivity.
  apply binary_round_aux_nonnegative. lia.
Qed.

(** X12.  [parsePackageSize] never throws, and a size it returns is well
    formed: its unit is "g", "ml" or "item", and its magnitude is a number
    that is zero or above (never NaN, never negative: a sign before the
    number is not part of the match). *)
Theorem parsePackageSize_well_formed :
  forall s : string,
    parsePackageSize s <> TypeError /\
    forall parsed,
      parsePackageSize s = Normal (Some parsed) ->
      In (unit_ parsed) ["g"; "ml"; "item"] /\
      (0 <=? value parsed)%float = true /\
      isNaN (value parsed) = false.
Proof.
  intros s.
  destruct (parsePackageSize_completes s) as [E|[num [tok [Hnum [Htok E]]]]];
    rewrite E; (split; [discriminate|]); intros parsed P; inversion P; subst parsed.
  assert (V : NonNegative (Prim2SF (value (sizeOf num tok)))).
  { unfold sizeOf. cbn [value].
    pose proof (parseFloat_decimal_nonnegative num Hnum) as N.
    destruct (String.eqb (toLowerCase tok) "kg");
      destruct (String.eqb (toLowerCase tok) "l");
      auto using times_1000_nonnegative. }
  split; [|split].
  - unfold sizeOf. cbn [unit_].
    destruct (String.eqb (toLowerCase tok) "item"); [cbn; auto|].
    destruct (String.eqb (toLowerCase tok) "ml" || String.eqb (toLowerCase tok) "l")%bool;
      cbn; auto.
  - now apply nonnegative_leb.
  - apply is_nan_Prim2SF. intros N. rewrite N in V. exact V.
Qed.

Lemma parsePackageSize_well_formed_witness :
  In (unit_ (mkParsedSize 5000%float "ml")) ["g"; "ml"; "item"] /\
  (0 <=? value (mkParsedSize 5000%float "ml"))%float = true /\
  isNaN (value (mkParsedSize 5000%float "ml")) = false.
Proof.
  apply (proj2 (parsePackageSize_well_formed "-5 lbs")). vm_compute. reflexivity.
Defined.

(** *** What surrounds the size text *)

Lemma matchAt_needs_digit (s : string) :
  stopsAt isDigit s -> matchAt true sizePattern s = None.
Proof.
  intros H. destruct (matchAt true sizePattern s) as [y|] eqn:M; [|reflexivity].
  exfalso. apply matchAt_parts in M.
  destruct M as [num [ws [tok [E [Hnum _]]]]].
  destruct (decimal_head num Hnum) as [ch [tl [En Hch]]].
  subst num. subst s. cbn in H. congruence.
Qed.

Lemma exec_skips_junk (pre s : string) :
  allChars notDigit pre = true ->
  exec true sizePattern (pre ++ s) = exec true sizePattern s.
Proof.
  intros H. induction pre as [|ch pre IH]; [reflexivity|].
  pose proof (junk_stops _ H) as Stop. apply junk_tail in H.
  cbn [append exec].
  rewrite (matchAt_needs_digit (String ch (pre ++ s)) Stop). auto.
Qed.

(** X13.  [parsePackageSize] extracts the size from its surroundings:
    characters before the size text, none of them a digit, and any
    characters after its unit token are ignored.  So "approx. 454g bag"
    is read as "454g", and a sign before the number is dropped. *)
Theorem parsePackageSize_extracts :
  forall (pre w post : string),
    allChars notDigit pre = true ->
    SizeText w ->
    parsePackageSize (pre ++ w ++ post) = parsePackageSize w.
Proof.
  intros pre w post Hpre Hw. unfold parsePackageSize, String_match.
  rewrite (exec_skips_junk pre (w ++ post) Hpre).
  destruct (SizeText_matchAt w post Hw) as [num [tok M]].
  destruct (SizeText_matchAt w "" Hw) as [num' [tok' M']].
  assert (E : num' = num /\ tok' = tok).
  { destruct Hw as [n ws t Hn Hws Ht].
    pose proof (matchAt_size n ws t post Hn Hws Ht) as A.
    pose proof (matchAt_size n ws t "" Hn Hws Ht) as B.
    rewrite <- !append_assoc in A, B. rewrite !append_assoc in M, M'.
    rewrite <- !append_assoc in M, M'.
    rewrite A in M. rewrite B in M'. inversion M. inversion M'. subst. auto. }
  destruct E as [-> ->].
  rewrite (exec_hit _ _ _ _ M).
  rewrite append_nil_r in M'. rewrite (exec_hit _ _ _ _ M').
  reflexivity.
Qed.

Lemma parsePackageSize_extracts_witness :
  parsePackageSize "approx. -1.5 KG bag" = Normal (Some (mkParsedSize 1500%float "g")).
Proof.
  refine (eq_trans (parsePackageSize_extracts "approx. -" "1.5 KG" " bag" eq_refl _) _).
  - apply (SizeText_intro "1.5" " " "KG"); [|reflexivity|cbn; tauto].
    apply (DecimalFraction "1" "5"); [discriminate|reflexivity|discriminate|reflexivity].
  - vm_compute. reflexivity.
Defined.

(** ** Properties of the calculation *)

Lemma dropWhile_all (p : ascii -> bool) (s : string) :
  allChars p s = true -> dropWhile p s = "".
Proof.
  induction s as [|ch tl IH]; cbn; [reflexivity|].
  intros H. apply andb_true_iff in H. destruct H as [Hc Ht]. rewrite Hc. auto.
Qed.

Lemma dropWhile_some (p : ascii -> bool) (s : string) :
  allChars p s = false ->
  exists ch tl, dropWhile p s = String ch tl /\ p ch = false.
Proof.
  induction s as [|ch tl IH]; cbn; [discriminate|].
  destruct (p ch) eqn:Hc; cbn; [exact IH|]. intros _. eauto.
Qed.

Lemma trimEnd_keeps (ch : ascii) (tl : string) :
  isWhiteSpace ch = false -> trimEnd (String ch tl) <> "".
Proof.
  intros H. cbn. destruct (trimEnd tl); [rewrite H|]; discriminate.
Qed.

(** A string trims to nothing exactly when it is white space only. *)
Lemma trim_blank (s : string) : isEmpty (trim s) = allChars isWhiteSpace s.
Proof.
  unfold trim. destruct (allChars isWhiteSpace s) eqn:H.
  - now rewrite (dropWhile_all _ _ H).
  - destruct (dropWhile_some _ _ H) as [ch [tl [-> Hc]]].
    pose proof (trimEnd_keeps ch tl Hc) as N.
    destruct (trimEnd (String ch tl)); [congruence|reflexivity].
Qed.

(** The run of [handleCalculate] up to its request, by the two tests of
    lines 26 and 30. *)
Lemma handleCalculate_run (st : State) :
  run handleCalculate st =
    if allChars isWhiteSpace (recipe st)
    then (Normal None, mkEffects (withError st enterRecipe) [])
    else if allChars isWhiteSpace (yield_ st)
    then (Normal None, mkEffects (withError st enterYield) [])
    else (Normal (Some (mkRequest (recipe st) (parseInt (yield_ st)))),
          mkEffects (mkState (recipe st) (yield_ st) true None "" None
                       (editPackageSize st) (editPackagePrice st) (expandedIndex st))
                    []).
Proof.
  unfold run, handleCalculate. rewrite !trim_blank.
  destruct (allChars isWhiteSpace (recipe st)); [reflexivity|].
  destruct (allChars isWhiteSpace (yield_ st)); reflexivity.
Qed.

(** X14.  [handleCalculate] sends no request when the recipe, or else
    the yield, is white space only: it sets the matching error and changes
    nothing else, the old result included.  Otherwise it sends the recipe
    as typed, untrimmed, with [parseInt] of the yield, and at once drops
    the old result, clears the error, closes any edit and sets loading;
    the expanded row and the edit inputs stay. *)
Theorem handleCalculate_validates :
  forall st : State,
    (allChars isWhiteSpace (recipe st) = true ->
       run handleCalculate st = (Normal None, mkEffects (withError st enterRecipe) [])) /\
    (allChars isWhiteSpace (recipe st) = false ->
     allChars isWhiteSpace (yield_ st) = true ->
       run handleCalculate st = (Normal None, mkEffects (withError st enterYield) [])) /\
    (allChars isWhiteSpace (recipe st) = false ->
     allChars isWhiteSpace (yield_ st) = false ->
       run handleCalculate st =
         (Normal (Some (mkRequest (recipe st) (parseInt (yield_ st)))),
          mkEffects (mkState (recipe st) (yield_ st) true None "" None
                       (editPackageSize st) (editPackagePrice st) (expandedIndex st))
                    [])).
Proof.
  intros st. rewrite handleCalculate_run.
  split; [|split].
  - intros ->. reflexivity.
  - intros -> ->. reflexivity.
  - intros -> ->. reflexivity.
Qed.

Lemma handleCalculate_validates_witness :
  run handleCalculate (mkState "  " "12" false (Some cookies) "" None "" "" None)
    = (Normal None,
       mkEffects (mkState "  " "12" false (Some cookies) enterRecipe None "" "" None) []) /\
  run handleCalculate (mkState " 200g flour " "12 " false (Some cookies) "old" (Some 0%nat)
                         "500" "4.00" (Some 0%nat))
    = (Normal (Some (mkRequest " 200g flour " 12%float)),
       mkEffects (mkState " 200g flour " "12 " true None "" None "500" "4.00" (Some 0%nat))
                 []).
Proof.
  split.
  - exact (proj1 (handleCalculate_validates
                    (mkState "  " "12" false (Some cookies) "" None "" "" None)) eq_refl).
  - refine (eq_trans
      (proj2 (proj2 (handleCalculate_validates
         (mkState " 200g flour " "12 " false (Some cookies) "old" (Some 0%nat)
            "500" "4.00" (Some 0%nat)))) eq_refl eq_refl) _).
    vm_compute. reflexivity.
Defined.

Lemma messageOf_nonempty (message : string) : messageOf message <> "".
Proof.
  unfold messageOf. destruct message; cbn; discriminate.
Qed.

(** X15.  A calculation ends with a result or with an error, never with
    both: when [handleCalculate] has sent its request, then after the part
    of the handler that runs on the reply, loading is off and no edit form
    is shown; on the data of the service the result is that data and the
    error is empty, and on every failure there is no result and the error
    is a non-empty message. *)
Theorem calculation_ends_with_result_or_error :
  forall (st : State) (req : Request) (reply : Reply),
    fst (run handleCalculate st) = Normal (Some req) ->
    loading (next (handleCalculateResumed reply) (next handleCalculate st)) = false /\
    editingIndex (next (handleCalculateResumed reply) (next handleCalculate st)) = None /\
    recipe (next (handleCalculateResumed reply) (next handleCalculate st)) = recipe st /\
    yield_ (next (handleCalculateResumed reply) (next handleCalculate st)) = yield_ st /\
    match reply with
    | ResponseData data =>
        result (next (handleCalculateResumed reply) (next handleCalculate st)) = Some data /\
        error (next (handleCalculateResumed reply) (next handleCalculate st)) = ""
    | _ =>
        result (next (handleCalculateResumed reply) (next handleCalculate st)) = None /\
        error (next (handleCalculateResumed reply) (next handleCalculate st)) <> ""
    end.
Proof.
  intros st req reply H.
  pose proof (handleCalculate_run st) as R.
  destruct (allChars isWhiteSpace (recipe st)) eqn:Hr.
  { rewrite R in H. discriminate. }
  destruct (allChars isWhiteSpace (yield_ st)) eqn:Hy.
  { rewrite R in H. discriminate. }
  assert (E1 : next handleCalculate st =
               mkState (recipe st) (yield_ st) true None "" None
                 (editPackageSize st) (editPackagePrice st) (expandedIndex st)).
  { unfold next. now rewrite R. }
  rewrite E1.
  destruct reply as [m| |m|d]; unfold next, run, handleCalculateResumed; cbn;
    repeat split; try apply messageOf_nonempty; discriminate.
Qed.

Lemma calculation_ends_with_result_or_error_witness :
  result (next (handleCalculateResumed ResponseNotOk)
            (next handleCalculate (mkState "flour" "12" false (Some cookies) "" None "" "" None)))
    = None /\
  error (next (handleCalculateResumed ResponseNotOk)
            (next handleCalculate (mkState "flour" "12" false (Some cookies) "" None "" "" None)))
    <> "".
Proof.
  exact (proj2 (proj2 (proj2 (proj2
    (calculation_ends_with_result_or_error
       (mkState "flour" "12" false (Some cookies) "" None "" "" None)
       (mkRequest "flour" 12%float) ResponseNotOk eq_refl))))).
Defined.

Lemma junk_dropWhile (p : ascii -> bool) (s : string) :
  allChars notDigit s = true -> allChars notDigit (dropWhile p s) = true.
Proof.
  induction s as [|ch tl IH]; cbn; [reflexivity|]. intros H.
  destruct (p ch); [|exact H]. apply andb_true_iff in H. now apply IH.
Qed.

Lemma junk_scanSign (s : string) :
  allChars notDigit s = true -> allChars notDigit (snd (scanSign s)) = true.
Proof.
  unfold scanSign. destruct s as [|ch tl]; [reflexivity|]. intros H.
  destruct (Ascii.eqb ch "+"); [now apply junk_tail in H|].
  destruct (Ascii.eqb ch "-"); [now apply junk_tail in H|exact H].
Qed.

(** Without a digit there is nothing for [parseInt] to read. *)
Lemma parseInt_junk (s : string) : allChars notDigit s = true -> parseInt s = nan.
Proof.
  intros H. unfold parseInt.
  pose proof (junk_scanSign _ (junk_dropWhile isWhiteSpace s H)) as J.
  destruct (scanSign (dropWhile isWhiteSpace s)) as [neg t]. cbn [snd] in J.
  assert (X : match t with
              | String z (String x r) =>
                  if (Ascii.eqb z "0" && (Ascii.eqb x "x" || Ascii.eqb x "X"))%bool
                  then Some r else None
              | _ => None
              end = None).
  { destruct t as [|z [|x r]]; try reflexivity.
    destruct (Ascii.eqb z "0") eqn:Z; [|reflexivity].
    apply Ascii.eqb_eq in Z. subst z. discriminate J. }
  rewrite X, (span_junk t J). reflexivity.
Qed.

(** X16.  The yield is not checked to be a number: a yield that is not
    blank and has no digit passes the validation, and the request carries
    NaN as its yield count. *)
Theorem handleCalculate_sends_NaN_yield :
  forall st : State,
    allChars isWhiteSpace (recipe st) = false ->
    allChars isWhiteSpace (yield_ st) = false ->
    allChars notDigit (yield_ st) = true ->
    exists req,
      fst (run handleCalculate st) = Normal (Some req) /\
      body_recipe req = recipe st /\
      isNaN (body_yield_count req) = true.
Proof.
  intros st Hr Hy Hd. unfold run, handleCalculate. rewrite !trim_blank, Hr, Hy.
  eexists. split; [reflexivity|]. cbn [body_recipe body_yield_count].
  rewrite (parseInt_junk _ Hd). split; reflexivity.
Qed.

Lemma handleCalculate_sends_NaN_yield_witness :
  exists req,
    fst (run handleCalculate (mkState "200g flour" "a dozen" false None "" None "" "" None))
      = Normal (Some req) /\
    body_recipe req = "200g flour" /\
    isNaN (body_yield_count req) = true.
Proof.
  exact (handleCalculate_sends_NaN_yield
           (mkState "200g flour" "a dozen" false None "" None "" "" None)
           eq_refl eq_refl eq_refl).
Defined.

(** X17.  After Load Example nothing of the old result is on screen:
    from any state the result and the error are dropped, so no row shows
    details or an edit form, although the edited and the expanded index
    are kept; and Calculate right after it passes the validation and sends
    the example recipe with the yield count 6. *)
Theorem loadExample_then_calculate :
  forall st : State,
    result (next loadExample st) = None /\
    error (next loadExample st) = "" /\
    editingIndex (next loadExample st) = editingIndex st /\
    expandedIndex (next loadExample st) = expandedIndex st /\
    (forall j, detailsShown (next loadExample st) j = false) /\
    (forall j, editFormShown (next loadExample st) j = false) /\
    fst (run handleCalculate (next loadExample st))
      = Normal (Some (mkRequest exampleRecipe 6%float)).
Proof.
  intros st. repeat split.
Qed.

(** ** Signs of the costs *)

Lemma notNegative_ltb (x : Number) :
  NotNegative (Prim2SF x) <-> (x <? 0)%float = false.
Proof.
  rewrite ltb_spec, Prim2SF_zero.
  destruct (Prim2SF x) as [[|]|[|]| |[|] m e]; cbn; split; intros H;
    try discriminate H; try contradiction; try reflexivity; exact I.
Qed.

Lemma binary_round_aux_notNegative (mx ex : Z) (lx : location) :
  (0 <= mx)%Z -> NotNegative (binary_round_aux prec emax false mx ex lx).
Proof.
  intros H. pose proof (binary_round_aux_nonnegative mx ex lx H) as N.
  destruct (binary_round_aux prec emax false mx ex lx); cbn in *; auto.
Qed.

Lemma div_core_quotient (m1 m2 : positive) (e1 e2 : Z) :
  (0 <= fst (fst (SFdiv_core_binary prec emax (Zpos m1) e1 (Zpos m2) e2)))%Z.
Proof.
  unfold SFdiv_core_binary. cbv zeta.
  match goal with
  | |- context [Z.div_eucl ?a ?b] =>
      assert (A : (0 <= a)%Z);
      [|pose proof (Z.div_pos a b A ltac:(lia)) as Q;
        unfold Z.div in Q; destruct (Z.div_eucl a b) as [q r]; exact Q]
  end.
  destruct (e1 - e2 - _)%Z; [lia|apply Z.shiftl_nonneg; lia|lia].
Qed.

Lemma div_notNegative (p s : Number) :
  NotNegative (Prim2SF p) ->
  isNaN s = false -> (s <=? 0)%float = false ->
  NotNegative (Prim2SF (p / s)%float).
Proof.
  unfold isNaN, is_nan. rewrite div_spec, leb_spec, eqb_spec, Prim2SF_zero.
  unfold SF64div.
  destruct (Prim2SF s) as [[|]|[|]| |[|] ms es]; cbn [SFeqb SFleb SFcompare];
    try discriminate; intros Hp _ _;
    destruct (Prim2SF p) as [[|]|[|]| |[|] mp ep]; cbn [SFdiv NotNegative xorb] in *;
    try discriminate Hp; try exact I; try reflexivity.
  pose proof (div_core_quotient mp ms ep es) as Q.
  destruct (SFdiv_core_binary prec emax (Zpos mp) ep (Zpos ms) es) as [[mz ez] lz].
  cbn [fst] in Q. now apply binary_round_aux_notNegative.
Qed.

Lemma mul_notNegative (x y : Number) :
  NotNegative (Prim2SF x) -> NotNegative (Prim2SF y) ->
  NotNegative (Prim2SF (x * y)%float).
Proof.
  rewrite mul_spec. unfold SF64mul.
  destruct (Prim2SF x) as [[|]|[|]| |[|] mx ex];
    destruct (Prim2SF y) as [[|]|[|]| |[|] my ey];
    cbn [SFmul NotNegative xorb]; intros Hx Hy;
    try discriminate Hx; try discriminate Hy; try exact I; try reflexivity.
  apply binary_round_aux_notNegative. lia.
Qed.

(** X18.  A saved edit never gives a negative cost: when the line's
    quantity is not below zero, the cost and the cost per unit of the
    edited line are not below zero either. *)
Theorem saveEdit_cost_not_negative :
  forall (index : nat) (st : State) (res res' : Result) (old new : Ingredient)
         (pkg : PackageInfo),
    result st = Some res ->
    Saves index st res' ->
    nth_error (ingredients res) index = Some old ->
    nth_error (ingredients res') index = Some new ->
    package_info new = Some pkg ->
    (quantity old <? 0)%float = false ->
    (cost new <? 0)%float = false /\ (cost_per_unit pkg <? 0)%float = false.
Proof.
  intros index st res res' old new pkg Hres S Hold Hnew Hpkg Hq.
  destruct (Saves_editedLine _ _ _ S) as [res0 [ing [Hres0 [Hing [P E]]]]].
  cbv zeta in E. rewrite Hres in Hres0. inversion Hres0; subst res0; clear Hres0.
  rewrite Hold in Hing. inversion Hing; subst ing; clear Hing.
  subst res'. cbn [ingredients] in Hnew.
  rewrite (nth_error_assign_eq _ _ _ _ Hold) in Hnew. inversion Hnew; subst new.
  cbn [package_info editedLine] in Hpkg. inversion Hpkg; subst pkg.
  cbn [cost cost_per_unit editedLine].
  unfold inputsPass in P. apply andb_true_iff in P. destruct P as [Ps Pp].
  apply negb_true_iff, orb_false_iff in Ps. apply negb_true_iff, orb_false_iff in Pp.
  destruct Ps as [Ps1 Ps2], Pp as [_ Pp].
  apply notNegative_ltb in Pp. apply notNegative_ltb in Hq.
  pose proof (div_notNegative _ _ Pp Ps1 Ps2) as D.
  split; apply notNegative_ltb; [now apply mul_notNegative|exact D].
Qed.

Lemma saveEdit_cost_not_negative_witness :
  (0.48 <? 0)%float = false /\ (0.008 <? 0)%float = false.
Proof.
  exact (saveEdit_cost_not_negative 0 (editing cookies 0 "500" "4.00") cookies cookiesEdited
           oats _ _ eq_refl saves_cookies eq_refl eq_refl eq_refl eq_refl).
Defined.

(** X19.  A free package costs nothing: when an edit with a price input
    that parses to zero is saved for a line whose quantity is a finite
    number that is zero or above, the cost and the cost per unit of the
    edited line are zero. *)
Theorem saveEdit_free_package :
  forall (index : nat) (st : State) (res res' : Result) (old new : Ingredient)
         (pkg : PackageInfo),
    result st = Some res ->
    Saves index st res' ->
    nth_error (ingredients res) index = Some old ->
    nth_error (ingredients res') index = Some new ->
    package_info new = Some pkg ->
    (parseFloat (editPackagePrice st) =? 0)%float = true ->
    (0 <=? quantity old)%float = true ->
    (quantity old <? infinity)%float = true ->
    (cost new =? 0)%float = true /\ (cost_per_unit pkg =? 0)%float = true.
Proof.
  intros index st res res' old new pkg Hres S Hold Hnew Hpkg Hp Hq1 Hq2.
  destruct (Saves_editedLine _ _ _ S) as [res0 [ing [Hres0 [Hing [P E]]]]].
  cbv zeta in E. rewrite Hres in Hres0. inversion Hres0; subst res0; clear Hres0.
  rewrite Hold in Hing. inversion Hing; subst ing; clear Hing.
  subst res'. cbn [ingredients] in Hnew.
  rewrite (nth_error_assign_eq _ _ _ _ Hold) in Hnew. inversion Hnew; subst new.
  cbn [package_info editedLine] in Hpkg. inversion Hpkg; subst pkg.
  cbn [cost cost_per_unit editedLine].
  unfold inputsPass in P. apply andb_true_iff in P. destruct P as [Ps _].
  apply negb_true_iff, orb_false_iff in Ps. destruct Ps as [Ps1 Ps2].
  unfold isNaN, is_nan in Ps1.
  rewrite eqb_spec in Hp, Ps1. rewrite leb_spec in Hq1, Ps2. rewrite ltb_spec in Hq2.
  rewrite Prim2SF_zero in *.
  change (Prim2SF infinity) with (S754_infinity false) in Hq2.
  assert (D : exists b, Prim2SF (parseFloat (editPackagePrice st)
                                 / parseFloat (editPackageSize st))%float = S754_zero b).
  { rewrite div_spec. unfold SF64div.
    destruct (Prim2SF (parseFloat (editPackagePrice st))) as [bp|[|]| |[|] mp ep];
      cbn in Hp; try discriminate Hp.
    destruct (Prim2SF (parseFloat (editPackageSize st))) as [[|]|[|]| |[|] ms es];
      cbn in Ps1, Ps2; try discriminate Ps1; try discriminate Ps2; cbn; eauto. }
  destruct D as [b D].
  rewrite !eqb_spec, mul_spec, D, Prim2SF_zero. unfold SF64mul.
  split; [|reflexivity].
  destruct (Prim2SF (quantity old)) as [[|]|[|]| |[|] mq eq];
    cbn in Hq1, Hq2; try discriminate Hq1; try discriminate Hq2; reflexivity.
Qed.

Lemma saveEdit_free_package_witness :
  exists new pkg,
    nth_error
      (ingredients (match result (next (saveEdit 0) (editing cookies 0 "500" "0"))
                    with Some r => r | None => cookies end)) 0 = Some new /\
    package_info new = Some pkg /\
    (cost new =? 0)%float = true /\ (cost_per_unit pkg =? 0)%float = true.
Proof.
  eexists. eexists. split; [vm_compute; reflexivity|]. split; [reflexivity|].
  exact (saveEdit_free_package 0 (editing cookies 0 "500" "0") cookies _ oats _ _
           eq_refl eq_refl eq_refl eq_refl eq_refl eq_refl eq_refl eq_refl).
Defined.

(** ** What [saveEdit] writes, [parsePackageSize] reads *)

Lemma displayUnitOf_cases (unit : string) :
  displayUnitOf unit = "ml" \/ displayUnitOf unit = "item" \/ displayUnitOf unit = "g".
Proof.
  unfold displayUnitOf.
  destruct (String.eqb unit "ml"); [now left|].
  destruct (String.eqb unit "item"); [now right; left|now right; right].
Qed.

Lemma parsePackageSize_size (num ws tok : string) :
  DecimalText num ->
  allChars isWhiteSpace ws = true ->
  UnitToken tok ->
  parsePackageSize (num ++ ws ++ tok) = Normal (Some (sizeOf num tok)).
Proof.
  intros Hnum Hws Htok. unfold parsePackageSize.
  now rewrite (match_size num ws tok Hnum Hws Htok).
Qed.

(** X20.  The size string that [saveEdit] writes is read back by
    [parsePackageSize] with the unit of the package and without scaling,
    whenever the size prints as a plain decimal (digits, possibly a point
    and digits): the magnitude read is [parseFloat] of the printed size. *)
Theorem saved_size_reads_back :
  forall (index : nat) (st : State) (res' : Result) (new : Ingredient) (pkg : PackageInfo),
    Saves index st res' ->
    nth_error (ingredients res') index = Some new ->
    package_info new = Some pkg ->
    DecimalText (Number_toString (parseFloat (editPackageSize st))) ->
    parsePackageSize (size pkg) =
      Normal (Some (mkParsedSize
                      (parseFloat (Number_toString (parseFloat (editPackageSize st))))
                      (pkg_unit pkg))).
Proof.
  intros index st res' new pkg S Hnew Hpkg Hdec.
  destruct (Saves_editedLine _ _ _ S) as [res [ing [Hres [Hing [_ E]]]]].
  cbv zeta in E. subst res'. cbn [ingredients] in Hnew.
  rewrite (nth_error_assign_eq _ _ _ _ Hing) in Hnew. inversion Hnew; subst new.
  cbn [package_info editedLine] in Hpkg. inversion Hpkg; subst pkg.
  cbn [size pkg_unit].
  change (Number_toString (parseFloat (editPackageSize st)) ++ displayUnitOf (ing_unit ing))
    with (Number_toString (parseFloat (editPackageSize st)) ++ "" ++ displayUnitOf (ing_unit ing)).
  destruct (displayUnitOf_cases (ing_unit ing)) as [E|[E|E]]; rewrite E;
    (rewrite (parsePackageSize_size _ "" _ Hdec eq_refl);
       [|unfold UnitToken, unitTokens; cbn; tauto]);
    unfold sizeOf; cbv zeta;
    generalize (parseFloat (Number_toString (parseFloat (editPackageSize st))));
    intros v; reflexivity.
Qed.

Lemma saved_size_reads_back_witness :
  parsePackageSize "500g" = Normal (Some (mkParsedSize 500%float "g")).
Proof.
  assert (D : DecimalText
                (Number_toString
                   (parseFloat (editPackageSize (editing cookies 0 "500" "4.00"))))).
  { vm_compute. apply DecimalInteger; [discriminate|vm_compute; reflexivity]. }
  pose proof (saved_size_reads_back 0 (editing cookies 0 "500" "4.00") cookiesEdited
                (mkIngredient "oats" 60%float "g" (4 / 500 * 60)%float None true
                   (Some (mkPackageInfo "500g" 4%float (4 / 500)%float "g")))
                (mkPackageInfo "500g" 4%float (4 / 500)%float "g")
                saves_cookies) as R.
  vm_compute in R. vm_compute. apply R; [reflexivity|reflexivity|exact D].
Defined.
